(** * Data-integrity scanner: a shallow embedding of [main.py]

    The scanner is a thin layer over pandas, numpy and scipy.  The functions
    of [main.py] are embedded below one for one ([check_missing_values],
    [check_duplicates], [check_outliers], [generate_report], [load_data],
    [main]); the library calls they make are given the small functional
    models of the modules [Py], [Frame], [Stats] and [Binary64].

    The scores of [check_outliers] are modelled twice.  [Stats] is exact: a
    finite cell value is a rational, a z-score is kept symbolically as
    [num / sqrt var], and the comparison against the threshold is decided
    over the rationals (lemma [gtb_real] relates it to the real numbers).
    It carries the properties that do not depend on rounding: the shape of
    the report, the guard on empty lists, the order of the indices, columns
    without spread.  [Binary64] computes the scores as the program does, in
    IEEE 754 binary64 with numpy's order of operations; it carries the
    statements about which values are flagged. *)

From Stdlib Require Import List Bool Arith Lia.
From Stdlib Require Import String Ascii Decimal DecimalString.
From Stdlib Require Import ZArith QArith Qabs.
From Stdlib Require Import SetoidList SetoidPermutation Permutation.
From Stdlib Require Import Reals Qreals Lra Psatz.
From Stdlib Require Floats.
Import ListNotations.

Close Scope R_scope.
Close Scope Q_scope.

(* ================================================================== *)
(** * Python values: outcomes, floats, dicts, text                     *)
(* ================================================================== *)

Module Py.

(** Exceptions a call can end in.  [InvalidParameter] is the error of the
    specification; [KeyError] and [TypeError] are what pandas and numpy
    raise on a missing column label and on non-numeric data. *)
Inductive exn : Type :=
| InvalidParameter
| KeyError (label : string)
| TypeError.

(** The result of running a function body: it returns or it raises. *)
Inductive outcome (A : Type) : Type :=
| Returns (a : A)
| Raises (e : exn).
Arguments Returns {A} a.
Arguments Raises {A} e.

Definition bind {A B} (m : outcome A) (k : A -> outcome B) : outcome B :=
  match m with
  | Returns a => k a
  | Raises e => Raises e
  end.

(** A [for] loop whose body may raise, threading the loop state. *)
Fixpoint for_each {A S} (xs : list A) (body : S -> A -> outcome S) (s : S)
  : outcome S :=
  match xs with
  | [] => Returns s
  | x :: xs' => bind (body s x) (for_each xs' body)
  end.

(** A Python [float] as a parameter: a finite number, an infinity or NaN. *)
Inductive float : Type :=
| Finite (q : Q)
| PosInf
| NegInf
| NaN.

(** A [dict] with string keys.  Python dicts keep insertion order and
    [d[k] = v] overwrites in place, so the model is an association list
    with at most one binding per key. *)
Definition dict (V : Type) : Type := list (string * V).

Fixpoint setitem {V} (d : dict V) (k : string) (v : V) : dict V :=
  match d with
  | [] => [(k, v)]
  | (k', v') :: d' =>
      if String.eqb k' k then (k, v) :: d' else (k', v') :: setitem d' k v
  end.

Fixpoint get {V} (d : dict V) (k : string) : option V :=
  match d with
  | [] => None
  | (k', v) :: d' => if String.eqb k' k then Some v else get d' k
  end.

Definition items {V} (d : dict V) : list (string * V) := d.

(** [str(n)] for a non-negative integer. *)
Definition str_of_nat (n : nat) : string :=
  NilEmpty.string_of_uint (Nat.to_uint n).

(** [", ".join(parts)] *)
Fixpoint join (sep : string) (parts : list string) : string :=
  match parts with
  | [] => EmptyString
  | [p] => p
  | p :: ps => (p ++ sep ++ join sep ps)%string
  end.

(** [str(indices)] for a list of ints: ["[0, 5]"]. *)
Definition str_of_list (l : list nat) : string :=
  ("[" ++ join ", " (map str_of_nat l) ++ "]")%string.

(** One line feed. *)
Definition nl : string := String (ascii_of_nat 10) EmptyString.

(** [s.split("\n")] *)
Fixpoint lines_acc (cur : string) (s : string) : list string :=
  match s with
  | EmptyString => [cur]
  | String c s' =>
      if Ascii.eqb c (ascii_of_nat 10)
      then cur :: lines_acc EmptyString s'
      else lines_acc (cur ++ String c EmptyString)%string s'
  end.

Definition lines (s : string) : list string := lines_acc EmptyString s.

(** [len(s)]: the number of characters.  The text is UTF-8, and every byte
    that is not a continuation byte ([10xxxxxx]) starts a character. *)
Definition is_continuation (c : ascii) : bool :=
  (128 <=? nat_of_ascii c) && (nat_of_ascii c <? 192).

Fixpoint len (s : string) : nat :=
  match s with
  | EmptyString => 0
  | String c s' => (if is_continuation c then 0 else 1) + len s'
  end.

(** [s.ljust(w)] and [s.rjust(w)] with spaces. *)
Fixpoint spaces (n : nat) : string :=
  match n with
  | O => EmptyString
  | S n' => String " "%char (spaces n')
  end.

Definition ljust (s : string) (w : nat) : string :=
  (s ++ spaces (w - len s))%string.

Definition rjust (s : string) (w : nat) : string :=
  (spaces (w - len s) ++ s)%string.

End Py.

Import Py.

(* ================================================================== *)
(** * pandas: the DataFrame and the calls the scanner makes            *)
(* ================================================================== *)

Module Frame.

(** The data of a column.  A column of a numeric dtype ([np.number]) holds
    finite numbers and missing entries (NaN); any other column holds
    strings and missing entries (None / NaN). *)
Inductive values : Type :=
| Numeric (xs : list (option Q))
| Object (xs : list (option string)).

Record Column : Type := { name : string; data : values }.

(** A DataFrame as [read_csv] builds it: named columns in file order over
    the default row index [0 .. n-1]. *)
Definition DataFrame : Type := list Column.

Definition column_length (c : Column) : nat :=
  match data c with
  | Numeric xs => List.length xs
  | Object xs => List.length xs
  end.

(** [len(data)] *)
Definition nrows (df : DataFrame) : nat :=
  match df with
  | [] => 0
  | c :: _ => column_length c
  end.

Definition columns (df : DataFrame) : list string := map name df.

(** The Table invariant: every column has the table's row count, and the
    column labels are pairwise different ([read_csv] renames repeats). *)
Definition well_formed (df : DataFrame) : Prop :=
  Forall (fun c => column_length c = nrows df) df /\ NoDup (columns df).

(** A single cell, whatever the dtype of its column. *)
Inductive cell : Type :=
| Num (q : Q)
| Str (s : string)
| NA.

Definition cells (c : Column) : list cell :=
  match data c with
  | Numeric xs =>
      map (fun x => match x with Some q => Num q | None => NA end) xs
  | Object xs =>
      map (fun x => match x with Some s => Str s | None => NA end) xs
  end.

(** [pd.isnull] on a cell. *)
Definition isnull (x : cell) : bool :=
  match x with
  | NA => true
  | _ => false
  end.

(** Equality of two cells as [duplicated] sees it: numbers by value,
    strings by content, and two missing entries are equal. *)
Definition cell_eqb (x y : cell) : bool :=
  match x, y with
  | Num p, Num q => Qeq_bool p q
  | Str s, Str t => String.eqb s t
  | NA, NA => true
  | _, _ => false
  end.

Definition row : Type := list cell.

Fixpoint row_eqb (r s : row) : bool :=
  match r, s with
  | [], [] => true
  | x :: r', y :: s' => cell_eqb x y && row_eqb r' s'
  | _, _ => false
  end.

(** Row [i]: the cells at position [i] of every column, in column order. *)
Definition iloc (df : DataFrame) (i : nat) : row :=
  map (fun c => nth i (cells c) NA) df.

Definition rows (df : DataFrame) : list row :=
  map (iloc df) (seq 0 (nrows df)).

(** [data.duplicated()] with its default [keep='first']: one flag per row,
    in row order; a row is flagged when an equal row was seen before it. *)
Fixpoint duplicated_from (seen : list row) (rs : list row) : list bool :=
  match rs with
  | [] => []
  | r :: rs' => existsb (row_eqb r) seen :: duplicated_from (r :: seen) rs'
  end.

Definition duplicated (df : DataFrame) : list bool :=
  duplicated_from [] (rows df).

(** [.sum()] of a boolean Series. *)
Definition sum_bool (bs : list bool) : nat :=
  List.length (filter (fun b => b) bs).

(** A Series of counts indexed by column label. *)
Definition Series : Type := list (string * nat).

(** [data.isnull().sum()]: per column, the number of missing cells. *)
Definition isnull_sum (df : DataFrame) : Series :=
  map (fun c => (name c, sum_bool (map isnull (cells c)))) df.

(** [data.select_dtypes(include=[np.number]).columns] *)
Definition select_dtypes_number (df : DataFrame) : list string :=
  map name
    (filter (fun c => match data c with Numeric _ => true | Object _ => false end)
       df).

(** [data[col]]: the column with that label. *)
Definition getitem (df : DataFrame) (col : string) : outcome Column :=
  match find (fun c => String.eqb (name c) col) df with
  | Some c => Returns c
  | None => Raises (KeyError col)
  end.

(** [.dropna()] on the values of a numeric column: the reduced sequence. *)
Fixpoint dropna (xs : list (option Q)) : list Q :=
  match xs with
  | [] => []
  | Some q :: xs' => q :: dropna xs'
  | None :: xs' => dropna xs'
  end.

(** The original row index of each entry that [dropna] keeps. *)
Fixpoint kept_rows_from (i : nat) (xs : list (option Q)) : list nat :=
  match xs with
  | [] => []
  | Some _ :: xs' => i :: kept_rows_from (S i) xs'
  | None :: xs' => kept_rows_from (S i) xs'
  end.

Definition kept_rows (xs : list (option Q)) : list nat := kept_rows_from 0 xs.

(** How pandas prints a label: tab, carriage return and line feed are
    written as backslash escapes. *)
Fixpoint escape (s : string) : string :=
  match s with
  | EmptyString => EmptyString
  | String c s' =>
      if Ascii.eqb c (ascii_of_nat 9) then String "\"%char (String "t"%char (escape s'))
      else if Ascii.eqb c (ascii_of_nat 13) then String "\"%char (String "r"%char (escape s'))
      else if Ascii.eqb c (ascii_of_nat 10) then String "\"%char (String "n"%char (escape s'))
      else String c (escape s')
  end.

(** pandas formats every label with a leading space and then trims the
    spaces that all labels have in front ([trim_front]): the loop stops at
    the first label that is empty or starts otherwise. *)
Definition starts_with_space (s : string) : bool :=
  match s with
  | String c _ => Ascii.eqb c " "%char
  | EmptyString => false
  end.

Definition drop_first (s : string) : string :=
  match s with
  | String _ s' => s'
  | EmptyString => EmptyString
  end.

Fixpoint trim_front (fuel : nat) (ss : list string) : list string :=
  match fuel with
  | O => ss
  | S fuel' =>
      if forallb starts_with_space ss
      then trim_front fuel' (map drop_first ss)
      else ss
  end.

(** [Series.to_string()] for a Series of counts (pandas 2.1 and later): the
    escaped labels, trimmed in front and left-justified to the widest label,
    three spaces, and the counts (each formatted with a leading sign slot)
    right-justified to the widest count; widths are counted in characters.
    An empty Series prints as [Series([], )]. *)
Definition max_width (ss : list string) : nat :=
  fold_right (fun s w => Nat.max (len s) w) 0 ss.

Definition to_string (s : Series) : string :=
  match s with
  | [] => "Series([], )"%string
  | p0 :: _ =>
      let formatted := map (fun p => (" " ++ escape (fst p))%string) s in
      let fmt_index :=
        trim_front (S (String.length (" " ++ escape (fst p0)))) formatted in
      let fmt_values := map (fun p => (" " ++ str_of_nat (snd p))%string) s in
      let wi := max_width fmt_index in
      let wv := max_width fmt_values in
      join nl
        (map (fun p => (ljust (fst p) (wi + 3) ++ rjust (snd p) wv)%string)
           (combine fmt_index fmt_values))
  end.

End Frame.

Import Frame.

(* ================================================================== *)
(** * numpy and scipy: exact statistics                                *)
(* ================================================================== *)

Module Stats.

Definition sum (xs : list Q) : Q := fold_right Qplus 0%Q xs.

Definition size (xs : list Q) : Q := inject_Z (Z.of_nat (List.length xs)).

(** [a.mean()] *)
Definition mean (xs : list Q) : Q := (sum xs / size xs)%Q.

Definition sq (x : Q) : Q := (x * x)%Q.

(** [a.var(ddof=ddof)]: the squared deviations from the mean, summed and
    divided by [n - ddof].  [ddof = 0] is the population variance, [ddof = 1]
    the sample variance. *)
Definition var (ddof : nat) (xs : list Q) : Q :=
  (sum (map (fun x => sq (x - mean xs)) xs)
   / (size xs - inject_Z (Z.of_nat ddof)))%Q.

(** A standardized score, kept exact: the value [znum / sqrt zvar].  With
    [zvar = 0] the division is by [0.0]: NaN for [0 / 0], an infinity
    otherwise.  A negative [zvar] has no square root (NaN). *)
Record zval : Type := { znum : Q; zvar : Q }.

(** [scipy.stats.zscore(a, ddof=ddof)]:
    [mn = a.mean(); std = a.std(ddof=ddof); z = (a - mn) / std]. *)
Definition zscore (ddof : nat) (xs : list Q) : list zval :=
  let mn := mean xs in
  let v := var ddof xs in
  map (fun x => {| znum := (x - mn)%Q; zvar := v |}) xs.

(** [np.abs] *)
Definition np_abs (zs : list zval) : list zval :=
  map (fun z => {| znum := Qabs (znum z); zvar := zvar z |}) zs.

Definition Qltb (x y : Q) : bool := negb (Qle_bool y x).

(** [z > t] on floats.  Any comparison with NaN is false. *)
Definition gtb (z : zval) (t : float) : bool :=
  if Qltb (zvar z) 0 then false
  else if Qeq_bool (zvar z) 0 then
    if Qle_bool (znum z) 0 then false
    else match t with
         | Finite _ | NegInf => true
         | PosInf | NaN => false
         end
  else
    match t with
    | NaN | PosInf => false
    | NegInf => true
    | Finite t =>
        if Qle_bool 0 (znum z)
        then Qltb t 0 || Qltb (sq t * zvar z) (sq (znum z))
        else Qltb t 0 && Qltb (sq (znum z)) (sq t * zvar z)
    end.

(** [np.where(mask)[0]]: the positions at which the mask holds, ascending. *)
Fixpoint where_from (i : nat) (mask : list bool) : list nat :=
  match mask with
  | [] => []
  | true :: mask' => i :: where_from (S i) mask'
  | false :: mask' => where_from (S i) mask'
  end.

Definition np_where (mask : list bool) : list nat := where_from 0 mask.

(** The real number a score stands for (meaningful when [0 < zvar]). *)
Definition zreal (z : zval) : R := (Q2R (znum z) / sqrt (Q2R (zvar z)))%R.

End Stats.

Import Stats.

(* ================================================================== *)
(** * numpy and scipy on binary64                                      *)
(* ================================================================== *)

(** The scores as the program computes them: IEEE 754 binary64 values and
    operations, in the order numpy performs them.  A float64 column is a
    list of such values with NaN for a missing cell; an integer column is
    the same list when its values are below [2^53]. *)

Module Binary64.

Import PrimFloat.

(** A [float64] value. *)
Abbreviation f64 := PrimFloat.float (only parsing).

(** [float(n)] for a length. *)
Definition of_nat (n : nat) : f64 := of_uint63 (Uint63.of_Z (Z.of_nat n)).

(** [Series.dropna()] on a float64 column: a missing cell is a NaN. *)
Definition dropna64 (xs : list f64) : list f64 :=
  filter (fun x => negb (is_nan x)) xs.

(** [res += a[i]] from left to right. *)
Fixpoint add_each (res : f64) (a : list f64) : f64 :=
  match a with
  | [] => res
  | x :: a' => add_each (res + x)%float a'
  end.

(** The eight accumulators of numpy's unrolled loop: every full block of
    eight is added lane by lane; what is left (fewer than eight) is
    returned. *)
Fixpoint add_blocks (fuel : nat) (r : list f64) (a : list f64)
  : list f64 * list f64 :=
  match fuel with
  | O => (r, a)
  | S fuel' =>
      if 8 <=? List.length a
      then add_blocks fuel' (map (fun p => (fst p + snd p)%float)
                               (combine r (firstn 8 a)))
             (skipn 8 a)
      else (r, a)
  end.

Definition combine8 (r : list f64) : f64 :=
  match r with
  | [r0; r1; r2; r3; r4; r5; r6; r7] =>
      (((r0 + r1) + (r2 + r3)) + ((r4 + r5) + (r6 + r7)))%float
  | _ => add_each neg_zero r
  end.

(** numpy's pairwise summation of a contiguous float64 array. *)
Fixpoint pairwise_sum (fuel : nat) (a : list f64) : f64 :=
  let n := List.length a in
  if n <? 8 then add_each neg_zero a
  else if n <=? 128 then
    let (r, rest) := add_blocks n (firstn 8 a) (skipn 8 a) in
    add_each (combine8 r) rest
  else
    match fuel with
    | O => add_each neg_zero a
    | S fuel' =>
        let n2 := n / 2 - (n / 2) mod 8 in
        (pairwise_sum fuel' (firstn n2 a) + pairwise_sum fuel' (skipn n2 a))%float
    end.

(** [a.sum()] *)
Definition np_sum (a : list f64) : f64 := pairwise_sum (List.length a) a.

(** [a.mean()] *)
Definition np_mean (a : list f64) : f64 := (np_sum a / of_nat (List.length a))%float.

(** [a.var(ddof=ddof)]: [x = a - a.mean(); sum(x * x) / (n - ddof)]. *)
Definition np_var (ddof : nat) (a : list f64) : f64 :=
  let arrmean := np_mean a in
  let x := map (fun v => (v - arrmean)%float) a in
  let x := map (fun d => (d * d)%float) x in
  (np_sum x / of_nat (List.length a - ddof))%float.

(** [a.std(ddof=ddof)] *)
Definition np_std (ddof : nat) (a : list f64) : f64 := sqrt (np_var ddof a).

Definition eps : f64 := 0x1p-52%float.

(** The inputs SciPy treats as having no spread and scores with NaN.
    Releases differ: some test whether all values equal the first one,
    later ones whether the deviation is at most [eps * |mean|], early ones
    have no such test.  The rule is therefore a parameter of [zscore64];
    these are its three instances. *)
Definition all_equal_first (a : list f64) : bool :=
  match a with
  | [] => true
  | x :: _ => forallb (fun v => (v =? x)%float) a
  end.

Definition negligible_spread (a : list f64) : bool :=
  (np_std 0 a <=? abs (eps * np_mean a))%float.

Definition never_degenerate (a : list f64) : bool := false.

(** [scipy.stats.zscore(a, ddof=ddof)]: [(a - mn) / std], and NaN for an
    input without spread. *)
Definition zscore64 (degenerate : list f64 -> bool) (ddof : nat)
    (a : list f64) : list f64 :=
  let mn := np_mean a in
  let std := np_std ddof a in
  if degenerate a then map (fun _ => nan) a
  else map (fun v => ((v - mn) / std)%float) a.

End Binary64.

Import Binary64.

(* ================================================================== *)
(** * The scanner ([main.py])                                          *)
(* ================================================================== *)

Definition MissingValueReport : Type := Series.
Definition OutlierReport : Type := dict (list nat).

(** [check_missing_values(data)] *)
Definition check_missing_values (data : DataFrame) : outcome MissingValueReport :=
  let missing_values := isnull_sum data in
  Returns missing_values.

(** [check_duplicates(data)] *)
Definition check_duplicates (data : DataFrame) : outcome nat :=
  let duplicate_count := sum_bool (duplicated data) in
  Returns duplicate_count.

(** The numbers of a column handed to scipy; text cannot be standardized. *)
Definition as_numbers (c : Column) : outcome (list (option Q)) :=
  match data c with
  | Numeric xs => Returns xs
  | Object _ => Raises TypeError
  end.

(** The two lines of the loop body that compute a column's outlier list:
    [z_scores = np.abs(stats.zscore(data[col].dropna()))] and
    [outlier_indices = np.where(z_scores > z_thresh)[0]]. *)
Definition outlier_indices (xs : list (option Q)) (z_thresh : float) : list nat :=
  let z_scores := np_abs (zscore 0 (dropna xs)) in
  np_where (map (fun z => gtb z z_thresh) z_scores).

(** [check_outliers(data, z_thresh=3)] *)
Definition check_outliers (data : DataFrame) (z_thresh : float)
  : outcome OutlierReport :=
  let outliers : OutlierReport := [] in
  for_each (select_dtypes_number data)
    (fun outliers col =>
       bind (getitem data col) (fun column =>
       bind (as_numbers column) (fun xs =>
       let indices := outlier_indices xs z_thresh in
       Returns (if 0 <? List.length indices
                then setitem outliers col indices
                else outliers))))
    outliers.

Definition default_z_thresh : float := Finite 3.

(** The numeric columns of a table as SciPy receives them: label and
    float64 values. *)
Definition Table64 : Type := list (string * list f64).

(** The two lines of the loop body on a float64 column:
    [z_scores = np.abs(stats.zscore(data[col].dropna()))] and
    [outlier_indices = np.where(z_scores > z_thresh)[0]]. *)
Definition outlier_indices64 (degenerate : list f64 -> bool) (xs : list f64)
    (z_thresh : f64) : list nat :=
  let z_scores := map PrimFloat.abs (zscore64 degenerate 0 (dropna64 xs)) in
  np_where (map (fun z => PrimFloat.ltb z_thresh z) z_scores).

(** The loop of [check_outliers] over the numeric columns. *)
Definition check_outliers64 (degenerate : list f64 -> bool) (data : Table64)
    (z_thresh : f64) : OutlierReport :=
  fold_left
    (fun outliers col =>
       let indices := outlier_indices64 degenerate (snd col) z_thresh in
       if 0 <? List.length indices
       then setitem outliers (fst col) indices
       else outliers)
    data [].

(** One entry of the Outliers section, without its line feed. *)
Definition outlier_entry (entry : string * list nat) : string :=
  let (col, indices) := entry in
  (col ++ ": " ++ str_of_nat (List.length indices) ++ " outliers at indices "
       ++ str_of_list indices)%string.

(** [generate_report(missing_values, duplicate_count, outliers)] *)
Definition generate_report (missing_values : MissingValueReport)
    (duplicate_count : nat) (outliers : OutlierReport) : string :=
  let report := ("Data Integrity Report" ++ nl)%string in
  let report := (report ++ "=====================" ++ nl)%string in
  let report := (report ++ "Missing Values:" ++ nl)%string in
  let report := (report ++ to_string missing_values ++ nl ++ nl)%string in
  let report :=
    (report ++ "Duplicate Rows: " ++ str_of_nat duplicate_count ++ nl ++ nl)%string in
  let report := (report ++ "Outliers:" ++ nl)%string in
  let report :=
    fold_left (fun report entry => (report ++ outlier_entry entry ++ nl)%string)
      (items outliers) report in
  report.

(* ================================================================== *)
(** * Notions of the specification                                     *)
(* ================================================================== *)

(** Two rows are the same value tuple. *)
Definition same_row (r s : row) : Prop := row_eqb r s = true.

(** A list of the distinct value tuples of a table: no two members are the
    same tuple, and its members are exactly the tuples that occur as rows. *)
Definition distinct_tuples (df : DataFrame) (reps : list row) : Prop :=
  NoDupA same_row reps /\ equivlistA same_row reps (rows df).

(** The specification's score: as [zscore], with the sample standard
    deviation (divisor [n - 1]). *)
Definition spec_zscore (xs : list Q) : list zval := zscore 1 xs.

(** The outlier list the specification's wording describes for a column. *)
Definition spec_outlier_indices (xs : list (option Q)) (z_thresh : float)
  : list nat :=
  np_where (map (fun z => gtb z z_thresh) (np_abs (spec_zscore (dropna xs)))).

(** The column of the running example and the table of the end-to-end
    scenario. *)
Definition far_values : list (option Q) :=
  [Some 1; Some 2; Some 1; Some 2; Some 1; Some 50]%Q.

Definition example_far : DataFrame :=
  [ {| name := "x"; data := Numeric far_values |} ].

Definition example_AB : DataFrame :=
  [ {| name := "A"; data := Numeric [Some 1; Some 2; Some 2; None]%Q |};
    {| name := "B"; data := Numeric [Some 10; Some 20; Some 20; Some 10]%Q |} ].

(** The rows that [duplicated] leaves unflagged: the first occurrence of
    every value tuple, in row order. *)
Fixpoint first_occurrences (seen : list row) (rs : list row) : list row :=
  match rs with
  | [] => []
  | r :: rs' =>
      if existsb (row_eqb r) seen
      then first_occurrences (r :: seen) rs'
      else r :: first_occurrences (r :: seen) rs'
  end.

(** What one turn of the loop of [check_outliers] does to the dict, stated
    on the column rather than on its label. *)
Definition record_column (z_thresh : float) (outliers : OutlierReport)
    (c : Column) : OutlierReport :=
  match data c with
  | Numeric xs =>
      let indices := outlier_indices xs z_thresh in
      if 0 <? List.length indices then setitem outliers (name c) indices
      else outliers
  | Object _ => outliers
  end.

(** The binding a column ends up with in the report, if any. *)
Definition column_entry (z_thresh : float) (c : Column) : option (list nat) :=
  match data c with
  | Numeric xs =>
      let indices := outlier_indices xs z_thresh in
      if 0 <? List.length indices then Some indices else None
  | Object _ => None
  end.

(** The absolute z-score of the value at reduced position [i], with the
    deviation the code uses ([ddof = 0]) and with the sample deviation. *)
Definition abs_z (ddof : nat) (ys : list Q) (i : nat) : zval :=
  {| znum := Qabs (nth i ys 0%Q - mean ys); zvar := var ddof ys |}.

(** The original row indices of the values the loop body flags: each
    reported position mapped back through the rows [dropna] kept.  This is
    the list the specification's step 3 describes. *)
Definition original_row_indices (xs : list (option Q)) (z_thresh : float)
  : list nat :=
  map (fun i => nth i (kept_rows xs) 0) (outlier_indices xs z_thresh).

(** A column contributes no outlier: it is not numeric, or its list of
    flagged positions is empty. *)
Definition contributes_none (z_thresh : float) (c : Column) : Prop :=
  match data c with
  | Numeric xs => outlier_indices xs z_thresh = []
  | Object _ => True
  end.

(** Nine 0s, a 1 and a 4, after a missing cell and without it. *)
Definition shifted_values : list (option Q) :=
  [None; Some 0; Some 0; Some 0; Some 0; Some 0; Some 0;
   Some 0; Some 0; Some 0; Some 1; Some 4]%Q.

Definition spread_values : list (option Q) :=
  [Some 0; Some 0; Some 0; Some 0; Some 0; Some 0;
   Some 0; Some 0; Some 0; Some 1; Some 4]%Q.

Definition example_shifted : DataFrame :=
  [ {| name := "x"; data := Numeric shifted_values |} ].

Definition example_spread : DataFrame :=
  [ {| name := "x"; data := Numeric spread_values |} ].

(** A constant numeric column with a missing cell, next to a text column. *)
Definition example_constant : DataFrame :=
  [ {| name := "c"; data := Numeric [Some 7; Some 7; None; Some 7]%Q |};
    {| name := "s"; data := Object [Some "a"; None; Some "b"; Some "a"]%string |} ].

(** A table with missing cells in the same positions of two rows. *)
Definition example_nan_rows : DataFrame :=
  [ {| name := "A"; data := Numeric [Some 1; None; None]%Q |};
    {| name := "B"; data := Object [Some "u"; Some "v"; Some "v"]%string |} ].

(* ================================================================== *)
(** * Logging, loading and the command sequence                        *)
(* ================================================================== *)

(** The log file: the records in the order they were written.  The time
    stamp of the format string is left out. *)
Inductive level : Type := INFO | ERROR.

Definition log : Type := list (level * string).

(** What [pd.read_csv] does with a path: it returns a table, or it raises
    an exception, kept here as its text [str(e)]. *)
Inductive loaded : Type :=
| Table (data : DataFrame)
| Failed (message : string).

(** [load_data(file_path)]: the table with an INFO record, or an ERROR
    record and the same exception raised again. *)
Definition load_data (read_csv : string -> loaded) (file_path : string)
  : log * loaded :=
  match read_csv file_path with
  | Table data =>
      ([(INFO, "Data loaded successfully from " ++ file_path)%string], Table data)
  | Failed e =>
      ([(ERROR, "Error loading data from " ++ file_path ++ ": " ++ e)%string],
       Failed e)
  end.

(** A detector called from [main]: it writes its INFO record just before it
    returns, so an exception leaves no record. *)
Definition logged {A : Type} (message : string) (r : outcome A)
  : log * outcome A :=
  match r with
  | Returns a => ([(INFO, message)], Returns a)
  | Raises e => ([], Raises e)
  end.

Definition error_line : string :=
  "An error occurred. Please check the log file for details.".

(** The [except Exception as e] branch of [main]. *)
Definition handler (written : log) (e : string) : log * string :=
  (written ++ [(ERROR, "An error occurred during execution: " ++ e)%string],
   (error_line ++ nl)%string).

(** The path [main] reads. *)
Definition dataset_path : string := "your_dataset.csv".

(** [main()]: the records written to the log and the text printed.
    [str_of_exn] is [str(e)] for an exception of a detector. *)
Definition main (read_csv : string -> loaded) (str_of_exn : exn -> string)
  : log * string :=
  let file_path := dataset_path in
  let (l0, r0) := load_data read_csv file_path in
  match r0 with
  | Failed e => handler l0 e
  | Table data =>
      let (l1, r1) := logged "Missing values checked" (check_missing_values data) in
      match r1 with
      | Raises e => handler (l0 ++ l1) (str_of_exn e)
      | Returns missing_values =>
          let (l2, r2) := logged "Duplicate rows checked" (check_duplicates data) in
          match r2 with
          | Raises e => handler (l0 ++ l1 ++ l2) (str_of_exn e)
          | Returns duplicate_count =>
              let (l3, r3) :=
                logged "Outliers checked" (check_outliers data default_z_thresh) in
              match r3 with
              | Raises e => handler (l0 ++ l1 ++ l2 ++ l3) (str_of_exn e)
              | Returns outliers =>
                  let report :=
                    generate_report missing_values duplicate_count outliers in
                  (l0 ++ l1 ++ l2 ++ l3 ++ [(INFO, "Report generated"%string)],
                   (report ++ nl)%string)
              end
          end
      end
  end.

(** The bindings of the numeric columns that have outliers, in column
    order. *)
Definition column_bindings (z_thresh : float) (df : DataFrame)
  : list (string * list nat) :=
  flat_map
    (fun c => match column_entry z_thresh c with
              | Some l => [(name c, l)]
              | None => []
              end)
    df.

(** Whether a text holds a line feed. *)
Fixpoint has_line_feed (s : string) : bool :=
  match s with
  | EmptyString => false
  | String c s' => Ascii.eqb c (ascii_of_nat 10) || has_line_feed s'
  end.

(** Float64 columns of the examples: nine 0s, a 1 and a 4; the same after a
    missing cell; nine 0s and a 7; four values around [2^53]. *)
Definition spread64 : list f64 := map of_nat [0; 0; 0; 0; 0; 0; 0; 0; 0; 1; 4].

Definition shifted64 : list f64 := PrimFloat.nan :: spread64.

Definition boundary64 : list f64 := map of_nat [0; 0; 0; 0; 0; 0; 0; 0; 0; 7].

Definition huge64 : list f64 :=
  map (fun k => PrimFloat.add (PrimFloat.ldshiftexp PrimFloat.one (Uint63.of_Z (53 + 2101)))
                 (of_nat k))
    [0; 1; 0; 1].

(** A table of the end-to-end scenario with its rows in reverse order. *)
Definition example_BA_reversed : DataFrame :=
  [ {| name := "A"; data := Numeric [None; Some 2; Some 2; Some 1]%Q |};
    {| name := "B"; data := Numeric [Some 10; Some 20; Some 20; Some 10]%Q |} ].

(* ================================================================== *)
(** * Missing values                                                   *)
(* ================================================================== *)

Section MissingValues.

Lemma sum_bool_le (bs : list bool) : sum_bool bs <= List.length bs.
Proof. unfold sum_bool. apply filter_length_le. Qed.

Lemma cells_length (c : Column) : List.length (cells c) = column_length c.
Proof.
  unfold cells, column_length.
  destruct (data c); apply length_map.
Qed.

Lemma isnull_sum_labels (df : DataFrame) : map fst (isnull_sum df) = columns df.
Proof.
  unfold isnull_sum, columns. rewrite map_map. reflexivity.
Qed.

Lemma isnull_sum_bounded (df : DataFrame) (n : nat) :
  Forall (fun c => column_length c = n) df ->
  Forall (fun p => snd p <= n) (isnull_sum df).
Proof.
  unfold isnull_sum. intros H. apply Forall_map.
  apply Forall_impl with (2 := H). intros c Hc. simpl.
  rewrite <- Hc, <- cells_length.
  rewrite <- (length_map isnull (cells c)). apply sum_bool_le.
Qed.

(** C6: the missing-value report of a well-formed table has one entry per
    column, in the table's column order, each count lies between 0 and the
    row count, the call returns, and a table without rows has only zero
    counts. *)
Theorem check_missing_values_report (df : DataFrame) (Hwf : well_formed df) :
  exists report,
    check_missing_values df = Returns report
    /\ map fst report = columns df
    /\ List.length report = List.length df
    /\ Forall (fun p => 0 <= snd p <= nrows df) report
    /\ (nrows df = 0 -> Forall (fun p => snd p = 0) report).
Proof.
  destruct Hwf as [Hlen _].
  exists (isnull_sum df). split; [reflexivity |].
  split; [apply isnull_sum_labels |].
  split; [unfold isnull_sum; apply length_map |].
  pose proof (isnull_sum_bounded df (nrows df) Hlen) as Hb.
  split.
  - apply Forall_impl with (2 := Hb). intros p Hp. lia.
  - intros H0. apply Forall_impl with (2 := Hb). intros p Hp. lia.
Qed.

Lemma example_AB_well_formed : well_formed example_AB.
Proof.
  split.
  - repeat constructor.
  - unfold columns; simpl. repeat constructor; simpl; intuition discriminate.
Qed.

Lemma check_missing_values_report_witness :
  exists report,
    check_missing_values example_AB = Returns report
    /\ map fst report = columns example_AB
    /\ List.length report = List.length example_AB
    /\ Forall (fun p => 0 <= snd p <= nrows example_AB) report
    /\ (nrows example_AB = 0 -> Forall (fun p => snd p = 0) report).
Proof. exact (check_missing_values_report example_AB example_AB_well_formed). Defined.

End MissingValues.

(* ================================================================== *)
(** * Duplicate rows                                                   *)
(* ================================================================== *)

Section Duplicates.

Lemma cell_eqb_refl (x : cell) : cell_eqb x x = true.
Proof.
  destruct x; simpl; [apply Qeq_bool_refl | apply String.eqb_refl | reflexivity].
Qed.

Lemma cell_eqb_sym (x y : cell) : cell_eqb x y = true -> cell_eqb y x = true.
Proof.
  destruct x, y; simpl; try discriminate; trivial.
  - apply Qeq_bool_sym.
  - rewrite String.eqb_sym. trivial.
Qed.

Lemma cell_eqb_trans (x y z : cell) :
  cell_eqb x y = true -> cell_eqb y z = true -> cell_eqb x z = true.
Proof.
  destruct x, y, z; simpl; try discriminate; trivial.
  - apply Qeq_bool_trans.
  - rewrite !String.eqb_eq. congruence.
Qed.

Lemma row_eqb_refl (r : row) : row_eqb r r = true.
Proof.
  induction r as [| x r IH]; simpl; [reflexivity |].
  now rewrite cell_eqb_refl, IH.
Qed.

Lemma row_eqb_sym (r s : row) : row_eqb r s = true -> row_eqb s r = true.
Proof.
  revert s. induction r as [| x r IH]; intros [| y s]; simpl; try discriminate; trivial.
  rewrite !andb_true_iff. intros [H1 H2]. split; [now apply cell_eqb_sym | now apply IH].
Qed.

Lemma row_eqb_trans (r s u : row) :
  row_eqb r s = true -> row_eqb s u = true -> row_eqb r u = true.
Proof.
  revert s u. induction r as [| x r IH]; intros [| y s] [| z u]; simpl;
    try discriminate; trivial.
  rewrite !andb_true_iff. intros [H1 H2] [H3 H4]. split.
  - eapply cell_eqb_trans; eassumption.
  - eapply IH; eassumption.
Qed.

#[local] Instance same_row_equivalence : Equivalence same_row.
Proof.
  split.
  - intro r. apply row_eqb_refl.
  - intros r s. apply row_eqb_sym.
  - intros r s u. apply row_eqb_trans.
Qed.

Lemma seen_before (r : row) (seen : list row) :
  existsb (row_eqb r) seen = true <-> InA same_row r seen.
Proof.
  rewrite existsb_exists, InA_alt. unfold same_row.
  split; intros [s Hs]; exists s; tauto.
Qed.

(** Every row is either flagged or kept as a first occurrence. *)
Lemma flagged_plus_first (rs seen : list row) :
  sum_bool (duplicated_from seen rs) + List.length (first_occurrences seen rs)
  = List.length rs.
Proof.
  revert seen. induction rs as [| r rs IH]; intros seen; simpl; [reflexivity |].
  specialize (IH (r :: seen)). unfold sum_bool in *. simpl.
  destruct (existsb (row_eqb r) seen); simpl; lia.
Qed.

Lemma first_occurrences_sound (rs seen : list row) (x : row) :
  InA same_row x (first_occurrences seen rs) ->
  InA same_row x rs /\ ~ InA same_row x seen.
Proof.
  revert seen. induction rs as [| r rs IH]; intros seen; simpl.
  - intros H. inversion H.
  - destruct (existsb (row_eqb r) seen) eqn:E.
    + intros H. apply IH in H. destruct H as [H1 H2]. split.
      * now right.
      * intro Hs. apply H2. now right.
    + intros H. inversion H as [? ? Hx | ? ? Hx]; subst.
      * split; [now left |].
        intro Hs. rewrite Hx in Hs. apply seen_before in Hs. congruence.
      * apply IH in Hx. destruct Hx as [H1 H2]. split.
        -- now right.
        -- intro Hs. apply H2. now right.
Qed.

Lemma first_occurrences_complete (rs seen : list row) (x : row) :
  InA same_row x rs ->
  InA same_row x seen \/ InA same_row x (first_occurrences seen rs).
Proof.
  revert seen. induction rs as [| r rs IH]; intros seen H; simpl.
  - inversion H.
  - inversion H as [? ? Hx | ? ? Hx]; subst.
    + destruct (existsb (row_eqb r) seen) eqn:E.
      * left. rewrite Hx. now apply seen_before.
      * right. now left.
    + destruct (IH (r :: seen) Hx) as [Hs | Hf].
      * inversion Hs as [? ? Hr | ? ? Hr]; subst.
        -- destruct (existsb (row_eqb r) seen) eqn:E.
           ++ left. rewrite Hr. now apply seen_before.
           ++ right. now left.
        -- now left.
      * destruct (existsb (row_eqb r) seen); [now right | right; now right].
Qed.

Lemma first_occurrences_NoDupA (rs seen : list row) :
  NoDupA same_row (first_occurrences seen rs).
Proof.
  revert seen. induction rs as [| r rs IH]; intros seen; simpl.
  - constructor.
  - destruct (existsb (row_eqb r) seen); [apply IH |].
    constructor; [| apply IH].
    intro H. apply first_occurrences_sound in H. destruct H as [_ H].
    apply H. left. reflexivity.
Qed.

(** The first occurrences are one list of the distinct tuples. *)
Lemma first_occurrences_distinct (df : DataFrame) :
  distinct_tuples df (first_occurrences [] (rows df)).
Proof.
  split; [apply first_occurrences_NoDupA |].
  intros x. split.
  - intros H. now apply first_occurrences_sound in H.
  - intros H. apply first_occurrences_complete with (seen := []) in H.
    destruct H as [H | H]; [inversion H | exact H].
Qed.

Lemma PermutationA_same_length (l l' : list row) :
  PermutationA same_row l l' -> List.length l = List.length l'.
Proof.
  induction 1; simpl; congruence.
Qed.

(** Any two lists of the distinct tuples have the same length. *)
Lemma distinct_tuples_count (df : DataFrame) (reps reps' : list row) :
  distinct_tuples df reps -> distinct_tuples df reps' ->
  List.length reps = List.length reps'.
Proof.
  intros [N1 E1] [N2 E2]. apply PermutationA_same_length.
  apply NoDupA_equivlistA_PermutationA; try assumption.
  - exact same_row_equivalence.
  - intros x. rewrite (E1 x), (E2 x). reflexivity.
Qed.

Lemma rows_length (df : DataFrame) : List.length (rows df) = nrows df.
Proof. unfold rows. now rewrite length_map, length_seq. Qed.

Lemma rows_nth (df : DataFrame) (i : nat) :
  i < nrows df -> nth i (rows df) [] = iloc df i.
Proof.
  intros H. unfold rows.
  rewrite nth_indep with (d' := iloc df 0) by now rewrite length_map, length_seq.
  rewrite map_nth. now rewrite seq_nth.
Qed.

(** Which rows [duplicated] flags. *)
Lemma duplicated_from_nth (rs seen : list row) (i : nat) :
  i < List.length rs ->
  nth i (duplicated_from seen rs) false = true
  <-> InA same_row (nth i rs []) seen
      \/ exists j, j < i /\ same_row (nth j rs []) (nth i rs []).
Proof.
  revert seen i. induction rs as [| r rs IH]; intros seen i Hi; simpl in Hi; [lia |].
  destruct i as [| i]; simpl.
  - rewrite seen_before. split; [tauto |].
    intros [H | [j [Hj _]]]; [exact H | lia].
  - rewrite IH by lia. split.
    + intros [H | [j [Hj Hs]]].
      * inversion H as [? ? Hx | ? ? Hx]; subst.
        -- right. exists 0. split; [lia |]. simpl. now symmetry.
        -- now left.
      * right. exists (S j). split; [lia | exact Hs].
    + intros [H | [j [Hj Hs]]].
      * left. now right.
      * destruct j as [| j]; simpl in Hs.
        -- left. left. now symmetry.
        -- right. exists j. split; [lia | exact Hs].
Qed.

Lemma duplicated_nth (df : DataFrame) (i : nat) :
  i < nrows df ->
  nth i (duplicated df) false = true
  <-> exists j, j < i /\ same_row (iloc df j) (iloc df i).
Proof.
  intros Hi. unfold duplicated.
  rewrite duplicated_from_nth by now rewrite rows_length.
  split.
  - intros [H | [j [Hj Hs]]]; [inversion H |].
    exists j. split; [exact Hj |].
    rewrite !rows_nth in Hs by lia. exact Hs.
  - intros [j [Hj Hs]]. right. exists j. split; [exact Hj |].
    rewrite !rows_nth by lia. exact Hs.
Qed.

(** Two rows are the same tuple exactly when, column by column, their
    cells compare equal. *)
Lemma same_row_cells (df : DataFrame) (i j : nat) :
  same_row (iloc df j) (iloc df i)
  <-> forall c, In c df ->
        cell_eqb (nth j (cells c) NA) (nth i (cells c) NA) = true.
Proof.
  unfold same_row, iloc. induction df as [| c df IH]; simpl.
  - split; [intros _ c [] | reflexivity].
  - rewrite andb_true_iff, IH. split.
    + intros [H1 H2] c' [<- | Hc']; [exact H1 | now apply H2].
    + intros H. split; [apply H; now left | intros c' Hc'; apply H; now right].
Qed.

(** C5: the duplicate count is the number of rows minus the number of
    distinct value tuples; a row is counted exactly when an earlier row is
    the same tuple (so a first occurrence never is); with at most one row
    the count is 0. *)
Theorem check_duplicates_count (df : DataFrame) (reps : list row)
    (Hreps : distinct_tuples df reps) :
  exists count,
    check_duplicates df = Returns count
    /\ count = nrows df - List.length reps
    /\ List.length reps <= nrows df
    /\ (forall i, i < nrows df ->
          nth i (duplicated df) false = true
          <-> exists j, j < i /\ same_row (iloc df j) (iloc df i))
    /\ (forall i j,
          same_row (iloc df j) (iloc df i)
          <-> forall c, In c df ->
                cell_eqb (nth j (cells c) NA) (nth i (cells c) NA) = true)
    /\ (nrows df <= 1 -> count = 0).
Proof.
  exists (sum_bool (duplicated df)). split; [reflexivity |].
  pose proof (flagged_plus_first (rows df) []) as Hsum.
  rewrite rows_length in Hsum. fold (duplicated df) in Hsum.
  rewrite (distinct_tuples_count df _ reps (first_occurrences_distinct df) Hreps) in Hsum.
  split; [lia |]. split; [lia |].
  split; [intros i Hi; now apply duplicated_nth |].
  split; [intros i j; apply same_row_cells |].
  intros Hle.
  destruct (Nat.eq_dec (sum_bool (duplicated df)) 0) as [E | E]; [exact E |].
  exfalso.
  assert (Hn : nrows df = 1) by lia.
  assert (Hfirst : nth 0 (duplicated df) false = false).
  { destruct (nth 0 (duplicated df) false) eqn:E0; [| reflexivity].
    apply duplicated_nth in E0; [| lia]. destruct E0 as [j [Hj _]]. lia. }
  assert (Hlen : List.length (duplicated df) = 1).
  { unfold duplicated.
    assert (Hg : forall rs seen, List.length (duplicated_from seen rs) = List.length rs).
    { induction rs as [| r rs IH]; intros seen; simpl; [reflexivity | now rewrite IH]. }
    now rewrite Hg, rows_length. }
  destruct (duplicated df) as [| b [| b' l]]; try discriminate.
  simpl in Hfirst. subst b. apply E. reflexivity.
Qed.

(** The end-to-end scenario: rows 1 and 2 are the same tuple, and column A
    has one missing cell. *)
Example end_to_end_scenario :
  check_duplicates example_AB = Returns 1
  /\ check_missing_values example_AB = Returns [("A"%string, 1); ("B"%string, 0)]
  /\ check_outliers example_AB default_z_thresh = Returns [].
Proof. repeat split; vm_compute; reflexivity. Qed.

Lemma check_duplicates_count_witness :
  exists count,
    check_duplicates example_AB = Returns count
    /\ count = nrows example_AB - 3
    /\ 3 <= nrows example_AB
    /\ (forall i, i < nrows example_AB ->
          nth i (duplicated example_AB) false = true
          <-> exists j, j < i /\ same_row (iloc example_AB j) (iloc example_AB i))
    /\ (forall i j,
          same_row (iloc example_AB j) (iloc example_AB i)
          <-> forall c, In c example_AB ->
                cell_eqb (nth j (cells c) NA) (nth i (cells c) NA) = true)
    /\ (nrows example_AB <= 1 -> count = 0).
Proof.
  exact (check_duplicates_count example_AB _ (first_occurrences_distinct example_AB)).
Defined.

End Duplicates.

Section MissingCellsInDuplicates.

Lemma isnull_both_equal (x y : cell) :
  isnull x = true -> isnull y = true -> cell_eqb x y = true.
Proof. destruct x, y; simpl; intros; try discriminate; reflexivity. Qed.

Lemma sum_bool_flagged (bs : list bool) (i : nat) :
  nth i bs false = true -> 1 <= sum_bool bs.
Proof.
  revert i. induction bs as [| b bs IH]; intros i H.
  - destruct i; discriminate.
  - destruct i as [| i]; simpl in H.
    + subst b. unfold sum_bool. simpl. lia.
    + apply IH in H. unfold sum_bool in *. simpl. destruct b; simpl; lia.
Qed.

(** C9: a row that has missing cells in exactly the positions where an
    earlier row has them, and equal values everywhere else, is flagged by
    [duplicated] and counted: two missing cells compare equal. *)
Theorem check_duplicates_missing_equal (df : DataFrame) (i j : nat)
    (Hj : j < i) (Hi : i < nrows df)
    (Hcells : forall c, In c df ->
       (isnull (nth j (cells c) NA) = true /\ isnull (nth i (cells c) NA) = true)
       \/ (isnull (nth j (cells c) NA) = false
           /\ isnull (nth i (cells c) NA) = false
           /\ cell_eqb (nth j (cells c) NA) (nth i (cells c) NA) = true)) :
  cell_eqb NA NA = true
  /\ nth i (duplicated df) false = true
  /\ exists count, check_duplicates df = Returns count /\ 1 <= count.
Proof.
  split; [reflexivity |].
  assert (Hflag : nth i (duplicated df) false = true).
  { apply duplicated_nth; [exact Hi |]. exists j. split; [exact Hj |].
    apply same_row_cells. intros c Hc.
    destruct (Hcells c Hc) as [[H1 H2] | [_ [_ H]]]; [| exact H].
    now apply isnull_both_equal. }
  split; [exact Hflag |].
  exists (sum_bool (duplicated df)). split; [reflexivity |].
  now apply sum_bool_flagged with (i := i).
Qed.

Lemma check_duplicates_missing_equal_witness :
  cell_eqb NA NA = true
  /\ nth 2 (duplicated example_nan_rows) false = true
  /\ exists count, check_duplicates example_nan_rows = Returns count /\ 1 <= count.
Proof.
  apply (check_duplicates_missing_equal example_nan_rows 2 1).
  - lia.
  - unfold example_nan_rows, nrows, column_length; simpl; lia.
  - intros c [Hc | [Hc | []]]; subst c; simpl.
    + left. split; reflexivity.
    + right. repeat split; reflexivity.
Defined.

End MissingCellsInDuplicates.

(* ================================================================== *)
(** * Outliers: running the loop                                       *)
(* ================================================================== *)

Section OutlierLoop.

Variable z_thresh : float.

Lemma getitem_unique (df : DataFrame) (c : Column) :
  NoDup (columns df) -> In c df -> getitem df (name c) = Returns c.
Proof.
  unfold getitem, columns.
  induction df as [| c' df IH]; intros Hnd Hin; [destruct Hin |].
  simpl in *. inversion Hnd as [| ? ? Hnot Hnd']; subst.
  destruct Hin as [-> | Hin].
  - now rewrite String.eqb_refl.
  - destruct (String.eqb (name c') (name c)) eqn:E.
    + apply String.eqb_eq in E. exfalso. apply Hnot. rewrite E. now apply in_map.
    + now apply IH.
Qed.

(** On labels that are pairwise different the loop never raises: each label
    finds its own column, and only numeric columns are visited. *)
Lemma loop_returns (df part : DataFrame) (acc : OutlierReport) :
  NoDup (columns df) -> incl part df ->
  for_each (select_dtypes_number part)
    (fun outliers col =>
       bind (getitem df col) (fun column =>
       bind (as_numbers column) (fun xs =>
       let indices := outlier_indices xs z_thresh in
       Returns (if 0 <? List.length indices
                then setitem outliers col indices
                else outliers))))
    acc
  = Returns (fold_left (record_column z_thresh) part acc).
Proof.
  intros Hnd. revert acc. unfold select_dtypes_number.
  induction part as [| c part IH]; intros acc Hincl; [reflexivity |].
  assert (Hc : In c df) by (apply Hincl; now left).
  assert (Hpart : incl part df) by (intros x Hx; apply Hincl; now right).
  simpl. unfold record_column at 2.
  destruct (data c) as [xs | xs] eqn:E; simpl.
  - rewrite (getitem_unique df c Hnd Hc). simpl. unfold as_numbers. rewrite E. simpl.
    apply IH. exact Hpart.
  - apply IH. exact Hpart.
Qed.

Lemma check_outliers_run (df : DataFrame) :
  well_formed df ->
  check_outliers df z_thresh = Returns (fold_left (record_column z_thresh) df []).
Proof.
  intros [_ Hnd]. unfold check_outliers. apply loop_returns; [exact Hnd |].
  apply incl_refl.
Qed.

Lemma get_setitem (V : Type) (d : dict V) (k k' : string) (v : V) :
  get (setitem d k v) k' = if String.eqb k k' then Some v else get d k'.
Proof.
  induction d as [| [k0 v0] d IH]; simpl.
  - reflexivity.
  - destruct (String.eqb k0 k) eqn:E0; simpl.
    + apply String.eqb_eq in E0. subst k0.
      destruct (String.eqb k k'); reflexivity.
    + destruct (String.eqb k0 k') eqn:E1.
      * apply String.eqb_eq in E1. subst k'.
        rewrite String.eqb_sym, E0. reflexivity.
      * exact IH.
Qed.

Lemma get_record_other (acc : OutlierReport) (c : Column) (k : string) :
  name c <> k -> get (record_column z_thresh acc c) k = get acc k.
Proof.
  intros Hne. unfold record_column.
  destruct (data c); [| reflexivity].
  destruct (0 <? _); [| reflexivity].
  rewrite get_setitem. apply String.eqb_neq in Hne. now rewrite Hne.
Qed.

Lemma get_fold_other (part : list Column) (acc : OutlierReport) (k : string) :
  ~ In k (columns part) ->
  get (fold_left (record_column z_thresh) part acc) k = get acc k.
Proof.
  revert acc. induction part as [| c part IH]; intros acc Hk; [reflexivity |].
  simpl in *. rewrite IH by tauto. apply get_record_other. tauto.
Qed.

Lemma get_fold_column (part : list Column) (acc : OutlierReport) (c : Column) :
  NoDup (columns part) -> In c part ->
  get (fold_left (record_column z_thresh) part acc) (name c)
  = match column_entry z_thresh c with
    | Some l => Some l
    | None => get acc (name c)
    end.
Proof.
  revert acc. induction part as [| c' part IH]; intros acc Hnd Hin; [destruct Hin |].
  simpl in *. inversion Hnd as [| ? ? Hnot Hnd']; subst.
  destruct Hin as [-> | Hin].
  - rewrite get_fold_other.
    + unfold record_column, column_entry.
      destruct (data c); [| reflexivity].
      destruct (0 <? _); [| reflexivity].
      rewrite get_setitem. now rewrite String.eqb_refl.
    + exact Hnot.
  - rewrite IH by assumption.
    destruct (column_entry z_thresh c); [reflexivity |].
    apply get_record_other. intros E. apply Hnot. rewrite E.
    unfold columns. now apply in_map.
Qed.

(** The report of a well-formed table, key by key. *)
Lemma report_lookup (df : DataFrame) :
  well_formed df ->
  exists report,
    check_outliers df z_thresh = Returns report
    /\ (forall c, In c df -> get report (name c) = column_entry z_thresh c)
    /\ (forall k, ~ In k (columns df) -> get report k = None).
Proof.
  intros Hwf. exists (fold_left (record_column z_thresh) df []).
  split; [now apply check_outliers_run |].
  destruct Hwf as [_ Hnd]. split.
  - intros c Hc. rewrite (get_fold_column df [] c Hnd Hc).
    destruct (column_entry z_thresh c); reflexivity.
  - intros k Hk. now rewrite get_fold_other.
Qed.

(** Every binding of the report comes from a numeric column of the table. *)
Lemma report_binding (df : DataFrame) (report : OutlierReport)
    (k : string) (l : list nat) :
  well_formed df ->
  check_outliers df z_thresh = Returns report ->
  get report k = Some l ->
  exists xs,
    In {| name := k; data := Numeric xs |} df
    /\ l = outlier_indices xs z_thresh /\ l <> [].
Proof.
  intros Hwf Hrun Hget.
  destruct (report_lookup df Hwf) as [r [Hr [Hin Hout]]].
  rewrite Hrun in Hr. injection Hr as <-.
  destruct (in_dec string_dec k (columns df)) as [Hk | Hk].
  - unfold columns in Hk. apply in_map_iff in Hk. destruct Hk as [c [Hname Hc]].
    subst k. rewrite (Hin c Hc) in Hget. unfold column_entry in Hget.
    destruct c as [nm dat]. simpl in *. destruct dat as [xs | xs]; [| discriminate].
    exists xs. split; [exact Hc |].
    destruct (outlier_indices xs z_thresh) eqn:E; simpl in Hget; [discriminate |].
    injection Hget as <-. split; [reflexivity | discriminate].
  - rewrite (Hout k Hk) in Hget. discriminate.
Qed.

End OutlierLoop.

(* ================================================================== *)
(** * Outliers: positions                                              *)
(* ================================================================== *)

Section Positions.

Lemma where_from_In (mask : list bool) (s i : nat) :
  In i (where_from s mask)
  <-> s <= i /\ i < s + List.length mask /\ nth (i - s) mask false = true.
Proof.
  revert s. induction mask as [| b mask IH]; intros s; simpl.
  - split; [tauto | lia].
  - assert (Hrest :
      In i (where_from (S s) mask)
      <-> S s <= i /\ i < s + S (List.length mask)
          /\ match i - s with 0 => b | S m => nth m mask false end = true).
    { rewrite IH. split.
      - intros [H1 [H2 H3]]. repeat split; try lia.
        replace (i - s) with (S (i - S s)) by lia. exact H3.
      - intros [H1 [H2 H3]]. repeat split; try lia.
        replace (i - s) with (S (i - S s)) in H3 by lia. exact H3. }
    destruct b; simpl; rewrite Hrest.
    + split.
      * intros [<- | [H1 [H2 H3]]].
        -- rewrite Nat.sub_diag. repeat split; lia.
        -- repeat split; try lia. exact H3.
      * intros [H1 [H2 H3]].
        destruct (Nat.eq_dec s i) as [E | E]; [now left | right].
        repeat split; try lia. exact H3.
    + split.
      * intros [H1 [H2 H3]]. repeat split; try lia. exact H3.
      * intros [H1 [H2 H3]]. repeat split; try lia.
        -- destruct (Nat.eq_dec s i) as [E | E]; [| lia].
           subst i. rewrite Nat.sub_diag in H3. discriminate.
        -- exact H3.
Qed.

Lemma where_from_sorted (mask : list bool) (s : nat) :
  StronglySorted lt (where_from s mask).
Proof.
  revert s. induction mask as [| b mask IH]; intros s; simpl.
  - constructor.
  - destruct b; [| apply IH].
    constructor; [apply IH |].
    apply Forall_forall. intros i Hi. apply where_from_In in Hi. lia.
Qed.

Lemma where_from_none (mask : list bool) (s : nat) :
  Forall (fun b => b = false) mask -> where_from s mask = [].
Proof.
  revert s. induction mask as [| b mask IH]; intros s H; [reflexivity |].
  inversion H; subst. simpl. now apply IH.
Qed.

Lemma zscore_length (ddof : nat) (ys : list Q) :
  List.length (np_abs (zscore ddof ys)) = List.length ys.
Proof. unfold np_abs, zscore. now rewrite !length_map. Qed.

Lemma zscore_nth (ddof : nat) (ys : list Q) (i : nat) (d : zval) :
  i < List.length ys ->
  nth i (np_abs (zscore ddof ys)) d = abs_z ddof ys i.
Proof.
  intros Hi. unfold np_abs, zscore, abs_z. rewrite map_map.
  rewrite nth_indep
    with (d' := (fun x => {| znum := Qabs (x - mean ys); zvar := var ddof ys |}) 0%Q)
    by now rewrite length_map.
  now rewrite (map_nth (fun x => {| znum := Qabs (x - mean ys); zvar := var ddof ys |})).
Qed.

(** The positions the loop body reports, one by one. *)
Lemma outlier_indices_In (xs : list (option Q)) (t : float) (i : nat) :
  In i (outlier_indices xs t)
  <-> i < List.length (dropna xs) /\ gtb (abs_z 0 (dropna xs) i) t = true.
Proof.
  unfold outlier_indices, np_where. rewrite where_from_In.
  rewrite length_map, zscore_length, Nat.sub_0_r, Nat.add_0_l.
  split.
  - intros [_ [Hi H]]. split; [exact Hi |].
    rewrite nth_indep with (d' := gtb (abs_z 0 (dropna xs) i) t) in H
      by now rewrite length_map, zscore_length.
    rewrite (map_nth (fun z => gtb z t)) in H.
    now rewrite zscore_nth in H.
  - intros [Hi H]. repeat split; [lia | exact Hi |].
    rewrite nth_indep with (d' := gtb (abs_z 0 (dropna xs) i) t)
      by now rewrite length_map, zscore_length.
    rewrite (map_nth (fun z => gtb z t)).
    now rewrite zscore_nth.
Qed.

Lemma spec_outlier_indices_In (xs : list (option Q)) (t : float) (i : nat) :
  In i (spec_outlier_indices xs t)
  <-> i < List.length (dropna xs) /\ gtb (abs_z 1 (dropna xs) i) t = true.
Proof.
  unfold spec_outlier_indices, spec_zscore, np_where. rewrite where_from_In.
  rewrite length_map, zscore_length, Nat.sub_0_r, Nat.add_0_l.
  split.
  - intros [_ [Hi H]]. split; [exact Hi |].
    rewrite nth_indep with (d' := gtb (abs_z 1 (dropna xs) i) t) in H
      by now rewrite length_map, zscore_length.
    rewrite (map_nth (fun z => gtb z t)) in H.
    now rewrite zscore_nth in H.
  - intros [Hi H]. repeat split; [lia | exact Hi |].
    rewrite nth_indep with (d' := gtb (abs_z 1 (dropna xs) i) t)
      by now rewrite length_map, zscore_length.
    rewrite (map_nth (fun z => gtb z t)).
    now rewrite zscore_nth.
Qed.

(** [dropna] and the rows it keeps. *)
Lemma kept_rows_from_length (xs : list (option Q)) (s : nat) :
  List.length (kept_rows_from s xs) = List.length (dropna xs).
Proof.
  revert s. induction xs as [| [q |] xs IH]; intros s; simpl; auto.
Qed.

Lemma kept_rows_from_nth (xs : list (option Q)) (s i : nat) :
  i < List.length (dropna xs) ->
  let o := nth i (kept_rows_from s xs) 0 in
  s + i <= o /\ o < s + List.length xs
  /\ nth (o - s) xs None = Some (nth i (dropna xs) 0%Q).
Proof.
  revert s i. induction xs as [| [q |] xs IH]; intros s i Hi; simpl in *.
  - lia.
  - destruct i as [| i].
    + rewrite Nat.sub_diag. repeat split; lia.
    + assert (Hi' : i < List.length (dropna xs)) by lia.
      destruct (IH (S s) i Hi') as [H1 [H2 H3]].
      repeat split; try lia.
      replace (nth i (kept_rows_from (S s) xs) 0 - s)
        with (S (nth i (kept_rows_from (S s) xs) 0 - S s)) by lia.
      exact H3.
  - destruct (IH (S s) i Hi) as [H1 [H2 H3]].
    repeat split; try lia.
    replace (nth i (kept_rows_from (S s) xs) 0 - s)
      with (S (nth i (kept_rows_from (S s) xs) 0 - S s)) by lia.
    exact H3.
Qed.

Lemma kept_rows_from_full (xs : list (option Q)) (s i : nat) :
  Forall (fun x => x <> None) xs ->
  i < List.length xs ->
  nth i (kept_rows_from s xs) 0 = s + i.
Proof.
  revert s i. induction xs as [| [q |] xs IH]; intros s i Hall Hi; simpl in *.
  - lia.
  - inversion Hall; subst. destruct i as [| i]; [lia |].
    rewrite IH by (assumption || lia). lia.
  - inversion Hall; subst. congruence.
Qed.

End Positions.

(* ================================================================== *)
(** * Outliers: the comparison with the threshold                      *)
(* ================================================================== *)

Section Reals.

Lemma Qltb_lt (x y : Q) : Qltb x y = true <-> (x < y)%Q.
Proof.
  unfold Qltb. rewrite negb_true_iff. split.
  - intros H. apply Qnot_le_lt. intro Hle. apply Qle_bool_iff in Hle. congruence.
  - intros H. destruct (Qle_bool y x) eqn:E; [| reflexivity].
    apply Qle_bool_iff in E. exfalso. now apply (Qlt_not_le x y).
Qed.

Lemma Qltb_real (x y : Q) : Qltb x y = true <-> (Q2R x < Q2R y)%R.
Proof.
  rewrite Qltb_lt. split; [apply Qlt_Rlt | apply Rlt_Qlt].
Qed.

Lemma Qle_bool_real (x y : Q) : Qle_bool x y = true <-> (Q2R x <= Q2R y)%R.
Proof.
  rewrite Qle_bool_iff. split; [apply Qle_Rle | apply Rle_Qle].
Qed.

Lemma Q2R_zero : Q2R 0 = 0%R.
Proof. unfold Q2R. simpl. lra. Qed.

Lemma Q2R_sq (x : Q) : Q2R (sq x) = (Q2R x * Q2R x)%R.
Proof. unfold sq. apply Q2R_mult. Qed.

Lemma square_lt (a b : R) : (0 <= a -> a < b -> a * a < b * b)%R.
Proof. intros Ha Hab. apply Rmult_le_0_lt_compat; assumption. Qed.

Lemma square_lt_inv (a b : R) : (0 <= b -> a * a < b * b -> a < b)%R.
Proof.
  intros Hb H. destruct (Rlt_or_le a b) as [Hlt | Hle]; [exact Hlt |].
  exfalso. apply (Rlt_irrefl (a * a)).
  apply Rlt_le_trans with (1 := H).
  apply Rmult_le_compat; assumption.
Qed.

(** Comparing [n / s] with [t] through squares, for a positive [s]. *)
Lemma div_gt_squares (n s t : R) :
  (0 < s)%R ->
  ((n / s > t)%R
   <-> (0 <= n /\ (t < 0 \/ t * t * (s * s) < n * n))%R
       \/ (n < 0 /\ t < 0 /\ n * n < t * t * (s * s))%R).
Proof.
  intros Hs.
  assert (Hdiv : (n / s > t <-> t * s < n)%R).
  { unfold Rgt. split; intros H.
    - apply Rmult_lt_compat_r with (r := s) in H; [| exact Hs].
      unfold Rdiv in H. rewrite Rmult_assoc, Rinv_l, Rmult_1_r in H; lra.
    - apply Rmult_lt_reg_r with (r := s); [exact Hs |].
      unfold Rdiv. rewrite Rmult_assoc, Rinv_l, Rmult_1_r; lra. }
  rewrite Hdiv.
  replace (t * t * (s * s))%R with ((t * s) * (t * s))%R by ring.
  split.
  - intros H. destruct (Rle_or_lt 0 n) as [Hn | Hn].
    + left. split; [exact Hn |].
      destruct (Rlt_or_le t 0) as [Ht | Ht]; [now left | right].
      apply square_lt; [| exact H]. apply Rmult_le_pos; lra.
    + right. split; [exact Hn |].
      assert (Ht : (t < 0)%R).
      { destruct (Rlt_or_le t 0) as [Ht | Ht]; [exact Ht |].
        assert (0 <= t * s)%R by (apply Rmult_le_pos; lra). lra. }
      split; [exact Ht |].
      replace (n * n)%R with ((- n) * (- n))%R by ring.
      replace (t * s * (t * s))%R with ((- (t * s)) * (- (t * s)))%R by ring.
      apply square_lt; lra.
  - intros [[Hn [Ht | Hsq]] | [Hn [Ht Hsq]]].
    + assert (t * s < 0)%R; [| lra].
      replace (t * s)%R with (- ((- t) * s))%R by ring.
      assert (0 < (- t) * s)%R by (apply Rmult_lt_0_compat; lra). lra.
    + apply square_lt_inv; assumption.
    + replace (n * n)%R with ((- n) * (- n))%R in Hsq by ring.
      replace (t * s * (t * s))%R with ((- (t * s)) * (- (t * s)))%R in Hsq by ring.
      apply square_lt_inv in Hsq; [lra |].
      replace (- (t * s))%R with ((- t) * s)%R by ring.
      apply Rmult_le_pos; lra.
Qed.

Lemma gtb_real (z : zval) (t : Q) :
  (0 < zvar z)%Q ->
  gtb z (Finite t) = true <-> (zreal z > Q2R t)%R.
Proof.
  intros Hv. unfold gtb, zreal.
  assert (Hv' : (0 < Q2R (zvar z))%R).
  { rewrite <- Q2R_zero. now apply Qlt_Rlt. }
  assert (Hs : (0 < sqrt (Q2R (zvar z)))%R) by now apply sqrt_lt_R0.
  assert (Hss : (sqrt (Q2R (zvar z)) * sqrt (Q2R (zvar z)) = Q2R (zvar z))%R)
    by (apply sqrt_def; lra).
  destruct (Qltb (zvar z) 0) eqn:E1.
  { apply Qltb_lt in E1. exfalso. apply (Qlt_irrefl 0). now apply Qlt_trans with (zvar z). }
  destruct (Qeq_bool (zvar z) 0) eqn:E2.
  { apply Qeq_bool_iff in E2. rewrite E2 in Hv. exfalso. now apply (Qlt_irrefl 0). }
  rewrite (div_gt_squares _ _ _ Hs), Hss.
  destruct (Qle_bool 0 (znum z)) eqn:E3.
  - apply Qle_bool_real in E3. rewrite Q2R_zero in E3.
    rewrite orb_true_iff, !Qltb_real, Q2R_mult, !Q2R_sq, Q2R_zero.
    split; [intros H; left; tauto |].
    intros [[_ H] | [H _]]; [exact H | lra].
  - assert (E3' : (Q2R (znum z) < 0)%R).
    { destruct (Rlt_or_le (Q2R (znum z)) 0) as [H | H]; [exact H |].
      rewrite <- Q2R_zero in H. apply Qle_bool_real in H. congruence. }
    rewrite andb_true_iff, !Qltb_real, Q2R_mult, !Q2R_sq, Q2R_zero.
    split; [intros H; right; tauto |].
    intros [[H _] | [_ H]]; [lra | exact H].
Qed.

End Reals.

(* ================================================================== *)
(** * Outliers: columns without spread                                 *)
(* ================================================================== *)

Section Spread.

Lemma sq_nonneg (x : Q) : (0 <= sq x)%Q.
Proof. unfold sq. nra. Qed.


Lemma sum_nonneg (l : list Q) :
  Forall (fun q => 0 <= q)%Q l -> (0 <= sum l)%Q.
Proof.
  induction 1 as [| q l Hq _ IH]; simpl; [apply Qle_refl |]. lra.
Qed.



Lemma size_cons (x : Q) (ys : list Q) : (size (x :: ys) == size ys + 1)%Q.
Proof.
  unfold size. simpl List.length. rewrite Nat2Z.inj_succ.
  unfold Z.succ. rewrite inject_Z_plus. reflexivity.
Qed.

Lemma size_nonneg (ys : list Q) : (0 <= size ys)%Q.
Proof.
  induction ys as [| y ys IH]; [unfold size; simpl; apply Qle_refl |].
  rewrite size_cons. lra.
Qed.

Lemma size_pos (ys : list Q) : ys <> [] -> (0 < size ys)%Q.
Proof.
  destruct ys as [| y ys]; [congruence | intros _].
  rewrite size_cons. pose proof (size_nonneg ys). lra.
Qed.



Lemma deviations_nonneg (m : Q) (ys : list Q) :
  Forall (fun q => 0 <= q)%Q (map (fun x => sq (x - m)) ys).
Proof.
  apply Forall_map. apply Forall_forall. intros x _. apply sq_nonneg.
Qed.

Lemma var_population (ys : list Q) :
  (var 0 ys == sum (map (fun x => sq (x - mean ys)) ys) / size ys)%Q.
Proof.
  unfold var. simpl Z.of_nat.
  assert (E : (size ys - inject_Z 0 == size ys)%Q) by (unfold inject_Z; ring).
  now rewrite E.
Qed.

Lemma var_population_nonneg (ys : list Q) : (0 <= var 0 ys)%Q.
Proof.
  rewrite var_population.
  pose proof (sum_nonneg _ (deviations_nonneg (mean ys) ys)) as Hs.
  destruct ys as [| y ys].
  - unfold size. simpl. discriminate.
  - apply Qle_shift_div_l; [apply size_pos; discriminate |]. lra.
Qed.








End Spread.

(* ================================================================== *)
(** * Outliers: the report                                             *)
(* ================================================================== *)

Section OutlierReports.

Lemma keys_setitem (V : Type) (d : dict V) (k : string) (v : V) (x : string) :
  In x (map fst (setitem d k v)) <-> x = k \/ In x (map fst d).
Proof.
  induction d as [| [k0 v0] d IH]; simpl.
  - intuition.
  - destruct (String.eqb k0 k) eqn:E; simpl.
    + apply String.eqb_eq in E. subst k0. intuition.
    + rewrite IH. intuition.
Qed.

Lemma setitem_NoDup (V : Type) (d : dict V) (k : string) (v : V) :
  NoDup (map fst d) -> NoDup (map fst (setitem d k v)).
Proof.
  induction d as [| [k0 v0] d IH]; simpl; intros Hnd.
  - constructor; [intros [] | constructor].
  - inversion Hnd as [| ? ? Hnot Hnd']; subst.
    destruct (String.eqb k0 k) eqn:E; simpl.
    + apply String.eqb_eq in E. subst k0. now constructor.
    + constructor; [| now apply IH].
      rewrite keys_setitem. intros [-> | H]; [| tauto].
      now rewrite String.eqb_refl in E.
Qed.

Lemma report_keys_NoDup (t : float) (part : list Column) (acc : OutlierReport) :
  NoDup (map fst acc) ->
  NoDup (map fst (fold_left (record_column t) part acc)).
Proof.
  revert acc. induction part as [| c part IH]; intros acc Hnd; [exact Hnd |].
  simpl. apply IH. unfold record_column.
  destruct (data c); [| exact Hnd].
  destruct (0 <? _); [now apply setitem_NoDup | exact Hnd].
Qed.

Lemma get_of_item (V : Type) (d : dict V) (k : string) (v : V) :
  NoDup (map fst d) -> In (k, v) (items d) -> get d k = Some v.
Proof.
  unfold items. induction d as [| [k0 v0] d IH]; simpl; intros Hnd Hin; [tauto |].
  inversion Hnd as [| ? ? Hnot Hnd']; subst.
  destruct Hin as [E | Hin].
  - injection E as -> ->. now rewrite String.eqb_refl.
  - destruct (String.eqb k0 k) eqn:E.
    + apply String.eqb_eq in E. subst k0. exfalso. apply Hnot.
      apply (in_map fst) in Hin. exact Hin.
    + now apply IH.
Qed.

Lemma key_of_get (V : Type) (d : dict V) (k : string) :
  In k (map fst (items d)) -> exists v, get d k = Some v.
Proof.
  unfold items. induction d as [| [k0 v0] d IH]; simpl; intros Hin; [tauto |].
  destruct (String.eqb k0 k) eqn:E; [now exists v0 |].
  destruct Hin as [-> | Hin]; [now rewrite String.eqb_refl in E | now apply IH].
Qed.

Lemma column_entry_nonempty (t : float) (c : Column) (l : list nat) :
  column_entry t c = Some l -> l <> [].
Proof.
  unfold column_entry. destruct (data c) as [xs | xs]; [| discriminate].
  destruct (outlier_indices xs t) eqn:E; simpl; [discriminate |].
  intros H. injection H as <-. discriminate.
Qed.

Lemma column_entry_none (t : float) (c : Column) :
  contributes_none t c -> column_entry t c = None.
Proof.
  unfold contributes_none, column_entry.
  destruct (data c) as [xs | xs]; [| reflexivity].
  intros ->. reflexivity.
Qed.

Lemma report_keys_unique (df : DataFrame) (t : float) (report : OutlierReport) :
  well_formed df ->
  check_outliers df t = Returns report ->
  NoDup (map fst report).
Proof.
  intros Hwf Hrun.
  rewrite (check_outliers_run t df Hwf) in Hrun. injection Hrun as <-.
  apply report_keys_NoDup. constructor.
Qed.

(** A column that contributes nothing is not a key of the report. *)
Lemma report_absent (df : DataFrame) (t : float) (report : OutlierReport)
    (c : Column) :
  well_formed df ->
  check_outliers df t = Returns report ->
  In c df -> contributes_none t c ->
  get report (name c) = None /\ ~ In (name c) (map fst (items report)).
Proof.
  intros Hwf Hrun Hc Hnone.
  destruct (report_lookup t df Hwf) as [r [Hr [Hin _]]].
  rewrite Hrun in Hr. injection Hr as <-.
  assert (Hg : get report (name c) = None).
  { rewrite (Hin c Hc). now apply column_entry_none. }
  split; [exact Hg |].
  intros Hk. apply key_of_get in Hk. destruct Hk as [v Hv]. congruence.
Qed.

(** C7: in the report of a well-formed table no key is bound to an empty
    list, and a column that contributes no outlier is not a key at all. *)
Theorem check_outliers_present_only_if_nonempty (df : DataFrame) (z_thresh : float)
    (Hwf : well_formed df) :
  exists report,
    check_outliers df z_thresh = Returns report
    /\ (forall k l, get report k = Some l -> l <> [])
    /\ (forall k l, In (k, l) (items report) -> l <> [])
    /\ (forall c, In c df -> contributes_none z_thresh c ->
          get report (name c) = None
          /\ ~ In (name c) (map fst (items report))).
Proof.
  destruct (report_lookup z_thresh df Hwf) as [report [Hrun _]].
  exists report. split; [exact Hrun |].
  assert (Hget : forall k l, get report k = Some l -> l <> []).
  { intros k l Hg.
    destruct (report_binding z_thresh df report k l Hwf Hrun Hg) as [xs [_ [_ H]]].
    exact H. }
  split; [exact Hget |]. split.
  - intros k l Hitem. apply (Hget k). apply get_of_item; [| exact Hitem].
    now apply (report_keys_unique df z_thresh).
  - intros c Hc Hnone. now apply (report_absent df z_thresh).
Qed.

Lemma example_constant_well_formed : well_formed example_constant.
Proof.
  split.
  - repeat constructor.
  - unfold columns; simpl. repeat constructor; simpl; intuition discriminate.
Qed.

Lemma check_outliers_present_only_if_nonempty_witness :
  exists report,
    check_outliers example_constant default_z_thresh = Returns report
    /\ (forall k l, get report k = Some l -> l <> [])
    /\ (forall k l, In (k, l) (items report) -> l <> [])
    /\ (forall c, In c example_constant -> contributes_none default_z_thresh c ->
          get report (name c) = None
          /\ ~ In (name c) (map fst (items report))).
Proof.
  exact (check_outliers_present_only_if_nonempty example_constant default_z_thresh
           example_constant_well_formed).
Defined.



End OutlierReports.

(* ================================================================== *)
(** * Outliers: which positions are reported                           *)
(* ================================================================== *)

Section OutlierIndices.

Lemma example_far_well_formed : well_formed example_far.
Proof.
  split.
  - repeat constructor.
  - unfold columns; simpl. repeat constructor; simpl; intuition.
Qed.

Lemma example_spread_well_formed : well_formed example_spread.
Proof.
  split.
  - repeat constructor.
  - unfold columns; simpl. repeat constructor; simpl; intuition.
Qed.

Lemma example_shifted_well_formed : well_formed example_shifted.
Proof.
  split.
  - repeat constructor.
  - unfold columns; simpl. repeat constructor; simpl; intuition.
Qed.

(** C10: every list of the report is strictly ascending, and each of its
    indices lies in [0, n) for n the number of non-missing values of the
    column it is bound to. *)
Theorem check_outliers_indices_ascending (df : DataFrame) (z_thresh : float)
    (report : OutlierReport) (k : string) (l : list nat)
    (Hwf : well_formed df)
    (Hrun : check_outliers df z_thresh = Returns report)
    (Hget : get report k = Some l) :
  exists xs,
    In {| name := k; data := Numeric xs |} df
    /\ StronglySorted lt l
    /\ Forall (fun i => 0 <= i < List.length (dropna xs)) l.
Proof.
  destruct (report_binding z_thresh df report k l Hwf Hrun Hget)
    as [xs [Hin [-> _]]].
  exists xs. split; [exact Hin |]. split.
  - unfold outlier_indices, np_where. apply where_from_sorted.
  - apply Forall_forall. intros i Hi.
    apply outlier_indices_In in Hi. lia.
Qed.

Lemma check_outliers_indices_ascending_witness :
  exists xs,
    In {| name := "x"; data := Numeric xs |} example_far
    /\ StronglySorted lt [0; 1; 2; 3; 4; 5]
    /\ Forall (fun i => 0 <= i < List.length (dropna xs)) [0; 1; 2; 3; 4; 5].
Proof.
  apply (check_outliers_indices_ascending example_far (Finite (-1))
           [("x"%string, [0; 1; 2; 3; 4; 5])] "x"%string [0; 1; 2; 3; 4; 5]).
  - exact example_far_well_formed.
  - vm_compute. reflexivity.
  - reflexivity.
Defined.

(** C1: the code misses the claim.  With a missing cell in row 0 the value 4
    stands in row 11 of the table, and the report names 10, its position
    after [dropna()], which is the row of the value 1.  Without missing
    cells position and row index coincide. *)
Lemma check_outliers_original_index_counterexample :
  check_outliers example_shifted default_z_thresh = Returns [("x"%string, [10])]
  /\ original_row_indices shifted_values default_z_thresh = [11]
  /\ nth 10 shifted_values None = Some 1%Q
  /\ nth 11 shifted_values None = Some 4%Q
  /\ nth 10 (dropna shifted_values) 0%Q = 4%Q
  /\ [10] <> original_row_indices shifted_values default_z_thresh.
Proof. repeat split; try (vm_compute; reflexivity). vm_compute. discriminate. Qed.

End OutlierIndices.

(* ================================================================== *)
(** * Outliers: the score and the threshold                            *)
(* ================================================================== *)

Section Scores.

Lemma Q2R_abs (q : Q) : Q2R (Qabs q) = Rabs (Q2R q).
Proof.
  destruct (Qlt_le_dec q 0) as [Hneg | Hpos].
  - rewrite Qeq_eqR with (y := (- q)%Q) by (apply Qabs_neg; lra).
    rewrite Q2R_opp. apply Qlt_Rlt in Hneg. rewrite Q2R_zero in Hneg.
    rewrite Rabs_left by exact Hneg. reflexivity.
  - rewrite Qeq_eqR with (y := q) by (apply Qabs_pos; exact Hpos).
    apply Qle_Rle in Hpos. rewrite Q2R_zero in Hpos.
    rewrite Rabs_pos_eq by exact Hpos. reflexivity.
Qed.

(** The symbolic absolute score is the absolute value of [(v - mean) / std]. *)
Lemma abs_z_real (ddof : nat) (ys : list Q) (i : nat) :
  (0 < var ddof ys)%Q ->
  zreal (abs_z ddof ys i)
  = Rabs ((Q2R (nth i ys 0%Q) - Q2R (mean ys)) / sqrt (Q2R (var ddof ys))).
Proof.
  intros Hv. unfold zreal, abs_z. cbn [znum zvar].
  assert (Hs : (0 < sqrt (Q2R (var ddof ys)))%R).
  { apply sqrt_lt_R0. rewrite <- Q2R_zero. now apply Qlt_Rlt. }
  rewrite Q2R_abs, Q2R_minus.
  unfold Rdiv. rewrite Rabs_mult.
  rewrite (Rabs_pos_eq (/ sqrt (Q2R (var ddof ys)))); [reflexivity |].
  left. now apply Rinv_0_lt_compat.
Qed.

Lemma spread_positive (ys : list Q) : ~ (var 0 ys == 0)%Q -> (0 < var 0 ys)%Q.
Proof.
  intros H. pose proof (var_population_nonneg ys) as Hge.
  apply Qle_lteq in Hge. destruct Hge as [Hlt | Heq]; [exact Hlt |].
  exfalso. apply H. now symmetry.
Qed.

(** The running example of the specification: with the default threshold
    the far value 50 is not reported (its score is the square root of 5). *)
Example example_far_not_flagged :
  check_outliers example_far default_z_thresh = Returns []
  /\ check_outliers example_far (Finite 2) = Returns [("x"%string, [5])].
Proof. split; vm_compute; reflexivity. Qed.

(** C2, as stated, fails: on nine 0s, a 1 and a 4 with the default threshold
    the code reports position 10, whose score with the sample deviation does
    not exceed 3. *)
Lemma check_outliers_sample_deviation_counterexample :
  check_outliers example_spread default_z_thresh = Returns [("x"%string, [10])]
  /\ spec_outlier_indices spread_values default_z_thresh = []
  /\ 2 <= List.length (dropna spread_values)
  /\ ~ (var 1 (dropna spread_values) == 0)%Q
  /\ ~ (Rabs ((Q2R (nth 10 (dropna spread_values) 0%Q)
               - Q2R (mean (dropna spread_values)))
              / sqrt (Q2R (var 1 (dropna spread_values)))) > Q2R 3)%R.
Proof.
  split; [vm_compute; reflexivity |].
  split; [vm_compute; reflexivity |].
  split; [vm_compute; lia |].
  split; [vm_compute; discriminate |].
  assert (Hv : (0 < var 1 (dropna spread_values))%Q) by (vm_compute; reflexivity).
  rewrite <- (abs_z_real 1 (dropna spread_values) 10 Hv).
  rewrite <- (gtb_real (abs_z 1 (dropna spread_values) 10) 3 Hv).
  vm_compute. discriminate.
Qed.

(** C3, as stated, fails: with a negative or zero threshold the call
    returns a report (here with every value flagged); it does not raise. *)
Lemma check_outliers_nonpositive_counterexample :
  check_outliers example_far (Finite (-1))
  = Returns [("x"%string, [0; 1; 2; 3; 4; 5])]
  /\ check_outliers example_far (Finite 0)
     = Returns [("x"%string, [0; 1; 2; 3; 4; 5])]
  /\ check_outliers example_far (Finite (-1)) <> Raises InvalidParameter
  /\ check_outliers example_far (Finite 0) <> Raises InvalidParameter.
Proof.
  repeat split; try (vm_compute; reflexivity); vm_compute; discriminate.
Qed.

(** Whatever the table, well-formed or not, the loop cannot end in
    InvalidParameter: its only failures are a missing label and text data. *)
Lemma for_each_not_invalid (A S : Type) (body : S -> A -> outcome S)
    (xs : list A) (s : S) :
  (forall s x, body s x <> Raises InvalidParameter) ->
  for_each xs body s <> Raises InvalidParameter.
Proof.
  intros Hbody. revert s. induction xs as [| x xs IH]; intros s; simpl.
  - discriminate.
  - specialize (Hbody s x). destruct (body s x) as [s' | e]; simpl.
    + apply IH.
    + exact Hbody.
Qed.

Lemma check_outliers_not_invalid (df : DataFrame) (z_thresh : float) :
  check_outliers df z_thresh <> Raises InvalidParameter.
Proof.
  unfold check_outliers. apply for_each_not_invalid.
  intros s col. unfold getitem.
  destruct (find _ df) as [c |]; simpl; [| discriminate].
  unfold as_numbers. destruct (data c); simpl; discriminate.
Qed.

(** C3 (amended): for a well-formed table the call returns a report for
    every threshold, positive or not, finite or not; and on no table at all
    does it raise InvalidParameter. *)
Theorem check_outliers_never_fails (df : DataFrame) (z_thresh : float)
    (Hwf : well_formed df) :
  (exists report, check_outliers df z_thresh = Returns report)
  /\ (forall any : DataFrame, check_outliers any z_thresh <> Raises InvalidParameter).
Proof.
  split.
  - rewrite (check_outliers_run z_thresh df Hwf). eexists. reflexivity.
  - intros any. apply check_outliers_not_invalid.
Qed.

Lemma check_outliers_never_fails_witness :
  (exists report, check_outliers example_far (Finite (-1)) = Returns report)
  /\ (forall any : DataFrame,
        check_outliers any (Finite (-1)) <> Raises InvalidParameter).
Proof.
  exact (check_outliers_never_fails example_far (Finite (-1)) example_far_well_formed).
Defined.

End Scores.

(* ================================================================== *)
(** * The rendered report                                              *)
(* ================================================================== *)

Section Rendering.

Lemma append_assoc (a b c : string) : ((a ++ b) ++ c = a ++ (b ++ c))%string.
Proof. induction a as [| ch a IH]; simpl; [reflexivity | now rewrite IH]. Qed.

Lemma append_empty_r (a : string) : (a ++ "" = a)%string.
Proof. induction a as [| ch a IH]; simpl; [reflexivity | now rewrite IH]. Qed.

(** A line feed ends the current line; what follows starts afresh. *)
Lemma lines_acc_break (x rest cur : string) :
  lines_acc cur (x ++ nl ++ rest) = lines_acc cur x ++ lines rest.
Proof.
  revert cur. induction x as [| ch x IH]; intros cur; simpl.
  - reflexivity.
  - destruct (Ascii.eqb ch (ascii_of_nat 10)); simpl; now rewrite IH.
Qed.

Lemma lines_break (x rest : string) :
  lines (x ++ nl ++ rest) = lines x ++ lines rest.
Proof. apply lines_acc_break. Qed.

Lemma lines_acc_digits (u : Decimal.uint) (cur : string) :
  lines_acc cur (NilEmpty.string_of_uint u)
  = [(cur ++ NilEmpty.string_of_uint u)%string].
Proof.
  revert cur. induction u; intros cur; simpl;
    try (rewrite IHu, append_assoc; reflexivity).
  now rewrite append_empty_r.
Qed.

Lemma lines_duplicate_rows (d : nat) :
  lines ("Duplicate Rows: " ++ str_of_nat d)
  = [("Duplicate Rows: " ++ str_of_nat d)%string].
Proof.
  unfold lines, str_of_nat. simpl. now rewrite lines_acc_digits.
Qed.

Lemma fold_entries (entries : list (string * list nat)) (report : string) :
  fold_left (fun report entry => (report ++ outlier_entry entry ++ nl)%string)
    entries report
  = (report ++ fold_right (fun e rest => (outlier_entry e ++ nl ++ rest)%string)
                 EmptyString entries)%string.
Proof.
  revert report. induction entries as [| e entries IH]; intros report; simpl.
  - now rewrite append_empty_r.
  - rewrite IH. now rewrite !append_assoc.
Qed.

Lemma lines_entries (entries : list (string * list nat)) :
  lines (fold_right (fun e rest => (outlier_entry e ++ nl ++ rest)%string)
           EmptyString entries)
  = flat_map (fun e => lines (outlier_entry e)) entries ++ [EmptyString].
Proof.
  induction entries as [| e entries IH]; [reflexivity |].
  cbn [fold_right flat_map]. rewrite lines_break, IH. now rewrite app_assoc.
Qed.

Lemma lines_blank (rest : string) :
  lines (nl ++ rest) = EmptyString :: lines rest.
Proof. reflexivity. Qed.

Lemma generate_report_lines (missing_values : MissingValueReport)
    (duplicate_count : nat) (outliers : OutlierReport) :
  lines (generate_report missing_values duplicate_count outliers)
  = ["Data Integrity Report"; "====================="; "Missing Values:"]%string
    ++ lines (to_string missing_values)
    ++ [""; ("Duplicate Rows: " ++ str_of_nat duplicate_count); ""; "Outliers:"]%string
    ++ flat_map (fun e => lines (outlier_entry e)) (items outliers)
    ++ [""%string].
Proof.
  unfold generate_report. rewrite fold_entries. rewrite !append_assoc.
  rewrite (lines_break "Data Integrity Report").
  rewrite (lines_break "=====================").
  rewrite (lines_break "Missing Values:").
  rewrite (lines_break (to_string missing_values)).
  rewrite lines_blank.
  rewrite <- (append_assoc "Duplicate Rows: " (str_of_nat duplicate_count)).
  rewrite (lines_break ("Duplicate Rows: " ++ str_of_nat duplicate_count)).
  rewrite lines_blank.
  rewrite (lines_break "Outliers:").
  rewrite lines_entries, lines_duplicate_rows.
  reflexivity.
Qed.
(** C8: the rendered text has its three sections in the fixed order Missing
    Values, Duplicate Rows, Outliers, for every input; for the report
    {A:1, B:0}, count 1 and no outliers it contains the line
    [Duplicate Rows: 1] and ends with the header [Outliers:] and nothing
    beneath it. *)
Theorem generate_report_sections (missing_values : MissingValueReport)
    (duplicate_count : nat) (outliers : OutlierReport) :
  lines (generate_report missing_values duplicate_count outliers)
  = ["Data Integrity Report"; "====================="; "Missing Values:"]%string
    ++ lines (to_string missing_values)
    ++ [""; ("Duplicate Rows: " ++ str_of_nat duplicate_count); ""; "Outliers:"]%string
    ++ flat_map (fun e => lines (outlier_entry e)) (items outliers)
    ++ [""%string]
  /\ lines (generate_report [("A", 1); ("B", 0)]%string 1 [])
     = ["Data Integrity Report"; "====================="; "Missing Values:";
        "A    1"; "B    0"; ""; "Duplicate Rows: 1"; ""; "Outliers:"; ""]%string
  /\ In "Duplicate Rows: 1"%string
       (lines (generate_report [("A", 1); ("B", 0)]%string 1 []))
  /\ (exists above,
        lines (generate_report [("A", 1); ("B", 0)]%string 1 [])
        = above ++ ["Outliers:"; ""]%string).
Proof.
  split; [apply generate_report_lines |].
  split; [vm_compute; reflexivity |].
  split.
  - vm_compute. do 6 right. left. reflexivity.
  - eexists. vm_compute. 
    instantiate (1 := ["Data Integrity Report"; "====================="; "Missing Values:";
        "A    1"; "B    0"; ""; "Duplicate Rows: 1"; ""]%string).
    reflexivity.
Qed.

End Rendering.

(* ================================================================== *)
(** * Missing values and the reduced sequence                          *)
(* ================================================================== *)

Section MissingAndKept.

Lemma missing_plus_kept (xs : list (option Q)) :
  sum_bool (map isnull
              (map (fun x => match x with Some q => Num q | None => NA end) xs))
  + List.length (dropna xs)
  = List.length xs.
Proof.
  unfold sum_bool. induction xs as [| [q |] xs IH]; simpl; lia.
Qed.

(** X1: in a well-formed table, the missing-value count of a numeric column
    and the number of values [check_outliers] standardizes for it (the
    column after [dropna]) add up to the row count. *)
Theorem check_missing_values_complements_dropna (df : DataFrame) (c : Column)
    (xs : list (option Q))
    (Hwf : well_formed df) (Hc : In c df) (Hxs : data c = Numeric xs) :
  exists report count,
    check_missing_values df = Returns report
    /\ In (name c, count) report
    /\ (forall n, In (name c, n) report -> n = count)
    /\ count + List.length (dropna xs) = nrows df.
Proof.
  destruct Hwf as [Hlen Hnd].
  exists (isnull_sum df), (sum_bool (map isnull (cells c))).
  split; [reflexivity |]. split.
  - unfold isnull_sum. apply in_map_iff. exists c. split; [reflexivity | exact Hc].
  - split.
    + intros n Hn. unfold isnull_sum in Hn. apply in_map_iff in Hn.
      destruct Hn as [c' [E Hc']]. injection E as Hname <-.
      assert (c' = c); [| now subst].
      clear - Hnd Hc Hc' Hname. unfold columns in Hnd.
      induction df as [| d df IH]; [destruct Hc |].
      simpl in Hnd. inversion Hnd as [| ? ? Hnot Hnd']; subst.
      destruct Hc as [-> | Hc], Hc' as [-> | Hc'].
      * reflexivity.
      * exfalso. apply Hnot. rewrite <- Hname. now apply in_map.
      * exfalso. apply Hnot. rewrite Hname. now apply in_map.
      * now apply IH.
    + rewrite Forall_forall in Hlen. rewrite <- (Hlen c Hc).
      unfold cells, column_length. rewrite Hxs. apply missing_plus_kept.
Qed.

Lemma check_missing_values_complements_dropna_witness :
  exists report count,
    check_missing_values example_AB = Returns report
    /\ In ("A"%string, count) report
    /\ (forall n, In ("A"%string, n) report -> n = count)
    /\ count + List.length (dropna [Some 1; Some 2; Some 2; None]%Q) = nrows example_AB.
Proof.
  apply (check_missing_values_complements_dropna example_AB
           {| name := "A"; data := Numeric [Some 1; Some 2; Some 2; None]%Q |}
           [Some 1; Some 2; Some 2; None]%Q).
  - exact example_AB_well_formed.
  - simpl. left. reflexivity.
  - reflexivity.
Defined.

End MissingAndKept.

(* ================================================================== *)
(** * Duplicate rows: when the count is zero, and row order            *)
(* ================================================================== *)

Section DuplicateCounts.

#[local] Existing Instance same_row_equivalence.

Lemma duplicated_from_length (rs seen : list row) :
  List.length (duplicated_from seen rs) = List.length rs.
Proof.
  revert seen. induction rs as [| r rs IH]; intros seen; simpl; [reflexivity | now rewrite IH].
Qed.

(** No row is flagged exactly when the rows are pairwise different and none
    of them was seen before. *)
Lemma none_flagged (rs seen : list row) :
  sum_bool (duplicated_from seen rs) = 0
  <-> NoDupA same_row rs /\ (forall r, InA same_row r rs -> ~ InA same_row r seen).
Proof.
  revert seen. induction rs as [| r rs IH]; intros seen; simpl.
  - split; [| reflexivity]. intros _. split; [constructor |].
    intros r H. inversion H.
  - unfold sum_bool in *. simpl.
    destruct (existsb (row_eqb r) seen) eqn:E; simpl.
    + split; [discriminate |]. intros [_ H]. exfalso.
      apply (H r); [left; reflexivity | now apply seen_before].
    + rewrite IH. split.
      * intros [Hnd Hseen]. split.
        -- constructor; [| exact Hnd].
           intro Hin. apply (Hseen r Hin). left. reflexivity.
        -- intros x Hx Hs. inversion Hx as [? ? Hxr | ? ? Hxr]; subst.
           ++ rewrite Hxr in Hs. apply seen_before in Hs. congruence.
           ++ apply (Hseen x Hxr). now right.
      * intros [Hnd Hseen]. inversion Hnd as [| ? ? Hnot Hnd']; subst.
        split; [exact Hnd' |].
        intros x Hx Hs. inversion Hs as [? ? Hxr | ? ? Hxr]; subst.
        -- apply Hnot. now rewrite <- Hxr.
        -- apply (Hseen x); [now right | exact Hxr].
Qed.

(** X2: the duplicate count is 0 exactly when no two rows of the table are
    the same tuple, and in a table with rows it is smaller than the row
    count (the first row is never counted). *)
Theorem check_duplicates_zero_iff_distinct (df : DataFrame) :
  exists count,
    check_duplicates df = Returns count
    /\ (count = 0 <-> NoDupA same_row (rows df))
    /\ (0 < nrows df -> count < nrows df).
Proof.
  exists (sum_bool (duplicated df)). split; [reflexivity |]. split.
  - unfold duplicated. rewrite none_flagged. split; [tauto |].
    intros H. split; [exact H |]. intros r _ Hs. inversion Hs.
  - intros Hpos. unfold duplicated. rewrite <- rows_length in *.
    destruct (rows df) as [| r rs]; simpl in *; [lia |].
    pose proof (sum_bool_le (duplicated_from [r] rs)) as Hle.
    rewrite duplicated_from_length in Hle. unfold sum_bool in *. simpl. lia.
Qed.

(** X3: the duplicate count does not depend on the order of the rows. *)
Theorem check_duplicates_row_order (df df' : DataFrame)
    (Hperm : PermutationA same_row (rows df) (rows df')) :
  check_duplicates df = check_duplicates df'.
Proof.
  unfold check_duplicates. f_equal.
  pose proof (flagged_plus_first (rows df) []) as H1.
  pose proof (flagged_plus_first (rows df') []) as H2.
  fold (duplicated df) in H1. fold (duplicated df') in H2.
  pose proof (PermutationA_same_length _ _ Hperm) as Hlen.
  assert (Hsame : List.length (first_occurrences [] (rows df))
                  = List.length (first_occurrences [] (rows df'))).
  { apply (distinct_tuples_count df').
    - destruct (first_occurrences_distinct df) as [Hnd Heq].
      split; [exact Hnd |].
      intros x. rewrite (Heq x).
      apply (PermutationA_equivlistA same_row_equivalence Hperm).
    - apply first_occurrences_distinct. }
  lia.
Qed.

Lemma check_duplicates_row_order_witness :
  check_duplicates example_AB = check_duplicates example_BA_reversed.
Proof.
  apply check_duplicates_row_order.
  apply (Permutation_PermutationA same_row_equivalence).
  change (rows example_BA_reversed) with (rev (rows example_AB)).
  apply Permutation_rev.
Defined.

End DuplicateCounts.

(* ================================================================== *)
(** * Outliers: the report in column order                             *)
(* ================================================================== *)

Section ReportOrder.

Variable z_thresh : float.

Lemma setitem_fresh (V : Type) (d : dict V) (k : string) (v : V) :
  ~ In k (map fst d) -> setitem d k v = d ++ [(k, v)].
Proof.
  induction d as [| [k0 v0] d IH]; simpl; intros Hk; [reflexivity |].
  destruct (String.eqb k0 k) eqn:E.
  - apply String.eqb_eq in E. tauto.
  - rewrite IH by tauto. reflexivity.
Qed.

Lemma column_bindings_keys (part : list Column) (k : string) :
  In k (map fst (column_bindings z_thresh part)) -> In k (columns part).
Proof.
  unfold column_bindings, columns. induction part as [| c part IH]; simpl; [tauto |].
  rewrite map_app, in_app_iff. intros [H | H]; [| right; now apply IH].
  destruct (column_entry z_thresh c); simpl in H; [| tauto].
  destruct H as [<- | []]. now left.
Qed.

(** On fresh labels the loop only ever appends to the dict. *)
Lemma fold_appends (part : list Column) (acc : OutlierReport) :
  NoDup (columns part) ->
  (forall k, In k (columns part) -> ~ In k (map fst acc)) ->
  fold_left (record_column z_thresh) part acc
  = acc ++ column_bindings z_thresh part.
Proof.
  revert acc. induction part as [| c part IH]; intros acc Hnd Hfresh; simpl.
  - now rewrite app_nil_r.
  - simpl in Hnd. inversion Hnd as [| ? ? Hnot Hnd']; subst.
    assert (Hstep : record_column z_thresh acc c
                    = acc ++ match column_entry z_thresh c with
                             | Some l => [(name c, l)]
                             | None => []
                             end).
    { unfold record_column, column_entry.
      destruct (data c); [| now rewrite app_nil_r].
      destruct (0 <? _); [| now rewrite app_nil_r].
      apply setitem_fresh. apply Hfresh. now left. }
    rewrite IH.
    + rewrite Hstep. unfold column_bindings. simpl. now rewrite app_assoc.
    + exact Hnd'.
    + intros k Hk. rewrite Hstep, map_app, in_app_iff.
      intros [H | H].
      * apply (Hfresh k); [now right | exact H].
      * destruct (column_entry z_thresh c); simpl in H; [| tauto].
        destruct H as [<- | []]. tauto.
Qed.

Lemma check_outliers_bindings (df : DataFrame) :
  well_formed df ->
  check_outliers df z_thresh = Returns (column_bindings z_thresh df).
Proof.
  intros Hwf. rewrite (check_outliers_run z_thresh df Hwf).
  destruct Hwf as [_ Hnd]. f_equal.
  rewrite fold_appends; [reflexivity | exact Hnd |].
  intros k _ [].
Qed.

Lemma column_bindings_labels (df : DataFrame) :
  map fst (column_bindings z_thresh df)
  = map name
      (filter (fun c => match column_entry z_thresh c with
                        | Some _ => true
                        | None => false
                        end)
         df).
Proof.
  unfold column_bindings. induction df as [| c df IH]; [reflexivity |].
  simpl. rewrite map_app, IH.
  destruct (column_entry z_thresh c); reflexivity.
Qed.

(** X4: the report of a well-formed table lists, in the table's column
    order, exactly the numeric columns that have a non-empty outlier list,
    each bound to that list; its keys are the labels of those columns in
    table order. *)
Theorem check_outliers_in_column_order (df : DataFrame) (Hwf : well_formed df) :
  exists report,
    check_outliers df z_thresh = Returns report
    /\ report = column_bindings z_thresh df
    /\ map fst (items report)
       = map name
           (filter (fun c => match column_entry z_thresh c with
                             | Some _ => true
                             | None => false
                             end)
              df).
Proof.
  exists (column_bindings z_thresh df).
  split; [now apply check_outliers_bindings |].
  split; [reflexivity | apply column_bindings_labels].
Qed.

End ReportOrder.

Lemma check_outliers_in_column_order_witness :
  exists report,
    check_outliers example_far (Finite 2) = Returns report
    /\ report = column_bindings (Finite 2) example_far
    /\ map fst (items report)
       = map name
           (filter (fun c => match column_entry (Finite 2) c with
                             | Some _ => true
                             | None => false
                             end)
              example_far).
Proof.
  exact (check_outliers_in_column_order (Finite 2) example_far example_far_well_formed).
Defined.

(* ================================================================== *)
(** * Outliers: how the threshold acts                                 *)
(* ================================================================== *)

Section Thresholds.

Lemma gtb_lower_threshold (z : zval) (t t' : Q) :
  (t <= t')%Q -> gtb z (Finite t') = true -> gtb z (Finite t) = true.
Proof.
  intros Hle H.
  destruct (Qlt_le_dec 0 (zvar z)) as [Hv | Hv].
  - apply (gtb_real z t Hv). apply (gtb_real z t' Hv) in H.
    apply Qle_Rle in Hle. lra.
  - unfold gtb in *.
    destruct (Qltb (zvar z) 0) eqn:E1; [discriminate |].
    destruct (Qeq_bool (zvar z) 0) eqn:E; [exact H |].
    exfalso. apply Qeq_bool_neq in E. apply E.
    apply Qle_antisym; [exact Hv |].
    destruct (Qlt_le_dec (zvar z) 0) as [Hlt | Hge]; [| exact Hge].
    apply Qltb_lt in Hlt. congruence.
Qed.

(** X5: lowering the threshold never removes an outlier: every index
    reported for a column at a threshold is reported for it at any smaller
    threshold. *)
Theorem check_outliers_threshold_monotone (df : DataFrame) (t t' : Q)
    (report' : OutlierReport) (k : string) (l' : list nat)
    (Hwf : well_formed df) (Hle : (t <= t')%Q)
    (Hrun' : check_outliers df (Finite t') = Returns report')
    (Hget' : get report' k = Some l') :
  exists report l,
    check_outliers df (Finite t) = Returns report
    /\ get report k = Some l
    /\ incl l' l.
Proof.
  destruct (report_binding (Finite t') df report' k l' Hwf Hrun' Hget')
    as [xs [Hin [-> Hne]]].
  destruct (report_lookup (Finite t) df Hwf) as [report [Hrun [Hcol _]]].
  assert (Hincl : incl (outlier_indices xs (Finite t')) (outlier_indices xs (Finite t))).
  { intros i Hi. apply outlier_indices_In in Hi. apply outlier_indices_In.
    destruct Hi as [Hlen Hg]. split; [exact Hlen |].
    now apply gtb_lower_threshold with (t' := t'). }
  exists report, (outlier_indices xs (Finite t)).
  split; [exact Hrun |]. split; [| exact Hincl].
  pose proof (Hcol _ Hin) as Hk. simpl in Hk. rewrite Hk.
  unfold column_entry. simpl.
  destruct (outlier_indices xs (Finite t)) as [| i l] eqn:E; [| reflexivity].
  exfalso. destruct (outlier_indices xs (Finite t')) as [| j l'']; [now apply Hne |].
  apply (Hincl j). now left.
Qed.

Lemma check_outliers_threshold_monotone_witness :
  exists report l,
    check_outliers example_far (Finite 1) = Returns report
    /\ get report "x"%string = Some l
    /\ incl [5] l.
Proof.
  apply (check_outliers_threshold_monotone example_far 1 2
           [("x"%string, [5])] "x"%string [5]).
  - exact example_far_well_formed.
  - vm_compute. discriminate.
  - vm_compute. reflexivity.
  - reflexivity.
Defined.

Lemma outlier_indices_unordered (xs : list (option Q)) (t : float) :
  t = NaN \/ t = PosInf -> outlier_indices xs t = [].
Proof.
  intros Ht. unfold outlier_indices, np_where. apply where_from_none.
  apply Forall_forall. intros b Hb. apply in_map_iff in Hb.
  destruct Hb as [z [<- Hz]]. unfold gtb.
  destruct (Qltb (zvar z) 0); [reflexivity |].
  destruct (Qeq_bool (zvar z) 0).
  - destruct (Qle_bool (znum z) 0); [reflexivity |].
    destruct Ht as [-> | ->]; reflexivity.
  - destruct Ht as [-> | ->]; reflexivity.
Qed.

Lemma column_bindings_none (t : float) (df : DataFrame) :
  (forall c, In c df -> column_entry t c = None) -> column_bindings t df = [].
Proof.
  unfold column_bindings. induction df as [| c df IH]; intros H; [reflexivity |].
  simpl. rewrite (H c) by now left. simpl. apply IH.
  intros c' Hc'. apply H. now right.
Qed.

(** X7: with a threshold that is NaN or positive infinity no comparison
    holds, and the report of a well-formed table is empty. *)
Theorem check_outliers_unordered_threshold (df : DataFrame) (t : float)
    (Hwf : well_formed df) (Ht : t = NaN \/ t = PosInf) :
  check_outliers df t = Returns [].
Proof.
  rewrite (check_outliers_run t df Hwf).
  destruct Hwf as [_ Hnd]. f_equal.
  rewrite fold_appends; [| exact Hnd | intros k _ []].
  apply column_bindings_none. intros c _. unfold column_entry.
  destruct (data c) as [xs | xs]; [| reflexivity].
  now rewrite outlier_indices_unordered.
Qed.

Lemma check_outliers_unordered_threshold_witness :
  check_outliers example_far NaN = Returns [].
Proof.
  apply (check_outliers_unordered_threshold example_far NaN).
  - exact example_far_well_formed.
  - left. reflexivity.
Defined.

End Thresholds.

(* ================================================================== *)
(** * The command sequence                                             *)
(* ================================================================== *)

Section CommandSequence.

Variable read_csv : string -> loaded.
Variable str_of_exn : exn -> string.

Lemma lines_printed (text : string) :
  lines (text ++ nl) = lines text ++ [EmptyString].
Proof.
  change (text ++ nl)%string with (text ++ nl ++ "")%string.
  now rewrite lines_break.
Qed.

Lemma report_is_not_error_line (mv : MissingValueReport) (d : nat)
    (o : OutlierReport) :
  (generate_report mv d o ++ nl)%string <> (error_line ++ nl)%string.
Proof.
  intros E. apply (f_equal lines) in E.
  rewrite !lines_printed, generate_report_lines in E.
  vm_compute in E. discriminate.
Qed.

(** What [main] does with a table that loaded. *)
Lemma main_loaded (df : DataFrame) :
  read_csv dataset_path = Table df -> well_formed df ->
  main read_csv str_of_exn
  = ([(INFO, "Data loaded successfully from " ++ dataset_path);
      (INFO, "Missing values checked");
      (INFO, "Duplicate rows checked");
      (INFO, "Outliers checked");
      (INFO, "Report generated")]%string,
     (generate_report (isnull_sum df) (sum_bool (duplicated df))
        (column_bindings default_z_thresh df) ++ nl)%string).
Proof.
  intros Hload Hwf. unfold main, load_data. rewrite Hload.
  unfold check_missing_values, check_duplicates. cbn [logged].
  rewrite (check_outliers_bindings default_z_thresh df Hwf). reflexivity.
Qed.

Lemma main_failed (message : string) :
  read_csv dataset_path = Failed message ->
  main read_csv str_of_exn
  = ([(ERROR, "Error loading data from " ++ dataset_path ++ ": " ++ message);
      (ERROR, "An error occurred during execution: " ++ message)]%string,
     (error_line ++ nl)%string).
Proof.
  intros Hload. unfold main, load_data. rewrite Hload. reflexivity.
Qed.

(** X10: when every table the loader can return is well formed, [main]
    prints the error line exactly when loading failed, and the log holds an
    ERROR record exactly in that case: a table that loads is always
    reported, and a failed load never prints a report. *)
Theorem main_error_iff_load_failed
    (Hwf : forall df, read_csv dataset_path = Table df -> well_formed df) :
  (snd (main read_csv str_of_exn) = (error_line ++ nl)%string
   <-> exists message, read_csv dataset_path = Failed message)
  /\ ((exists text, In (ERROR, text) (fst (main read_csv str_of_exn)))
      <-> exists message, read_csv dataset_path = Failed message).
Proof.
  destruct (read_csv dataset_path) as [df | message] eqn:Hload.
  - rewrite (main_loaded df Hload (Hwf df eq_refl)). cbn [fst snd]. split.
    + split.
      * intros E. exfalso. now apply report_is_not_error_line in E.
      * intros [m Hm]. discriminate.
    + split.
      * intros [text Hin]. exfalso. simpl in Hin.
        repeat (destruct Hin as [Hin | Hin]; [discriminate |]). exact Hin.
      * intros [m Hm]. discriminate.
  - rewrite (main_failed message Hload). cbn [fst snd]. split.
    + split; [intros _; now exists message | reflexivity].
    + split; [intros _; now exists message |].
      intros _. eexists. left. reflexivity.
Qed.

(** X11: for a well-formed table that loads, [main] prints the report
    rendered from the results of the three detectors, the outlier check run
    with the default threshold 3, followed by a line feed, and the log holds
    the five INFO records of the steps in their order. *)
Theorem main_prints_report (df : DataFrame)
    (Hload : read_csv dataset_path = Table df) (Hwf : well_formed df) :
  exists missing_values duplicate_count outliers,
    check_missing_values df = Returns missing_values
    /\ check_duplicates df = Returns duplicate_count
    /\ check_outliers df (Finite 3) = Returns outliers
    /\ snd (main read_csv str_of_exn)
       = (generate_report missing_values duplicate_count outliers ++ nl)%string
    /\ map fst (fst (main read_csv str_of_exn)) = [INFO; INFO; INFO; INFO; INFO]
    /\ map snd (fst (main read_csv str_of_exn))
       = [("Data loaded successfully from " ++ dataset_path)%string;
          "Missing values checked"; "Duplicate rows checked"; "Outliers checked";
          "Report generated"]%string.
Proof.
  exists (isnull_sum df), (sum_bool (duplicated df)),
    (column_bindings default_z_thresh df).
  rewrite (main_loaded df Hload Hwf).
  split; [reflexivity |]. split; [reflexivity |].
  split; [apply (check_outliers_bindings default_z_thresh df Hwf) |].
  repeat split.
Qed.

End CommandSequence.

Lemma main_error_iff_load_failed_witness :
  (snd (main (fun _ => Table example_AB) (fun _ => EmptyString))
   = (error_line ++ nl)%string
   <-> exists message, Table example_AB = Failed message)
  /\ ((exists text,
         In (ERROR, text)
           (fst (main (fun _ => Table example_AB) (fun _ => EmptyString))))
      <-> exists message, Table example_AB = Failed message).
Proof.
  apply (main_error_iff_load_failed (fun _ => Table example_AB)
           (fun _ => EmptyString)).
  intros df H. injection H as <-. exact example_AB_well_formed.
Defined.

Lemma main_prints_report_witness :
  exists missing_values duplicate_count outliers,
    check_missing_values example_AB = Returns missing_values
    /\ check_duplicates example_AB = Returns duplicate_count
    /\ check_outliers example_AB (Finite 3) = Returns outliers
    /\ snd (main (fun _ => Table example_AB) (fun _ => EmptyString))
       = (generate_report missing_values duplicate_count outliers ++ nl)%string
    /\ map fst (fst (main (fun _ => Table example_AB) (fun _ => EmptyString)))
       = [INFO; INFO; INFO; INFO; INFO]
    /\ map snd (fst (main (fun _ => Table example_AB) (fun _ => EmptyString)))
       = [("Data loaded successfully from " ++ dataset_path)%string;
          "Missing values checked"; "Duplicate rows checked"; "Outliers checked";
          "Report generated"]%string.
Proof.
  apply (main_prints_report (fun _ => Table example_AB) (fun _ => EmptyString)
           example_AB).
  - reflexivity.
  - exact example_AB_well_formed.
Defined.

(* ================================================================== *)
(** * The layout of the rendered report                                *)
(* ================================================================== *)

Section Layout.

Lemma has_line_feed_app (a b : string) :
  has_line_feed (a ++ b) = has_line_feed a || has_line_feed b.
Proof.
  induction a as [| c a IH]; simpl; [reflexivity |].
  rewrite IH. now rewrite orb_assoc.
Qed.

Lemma lines_acc_free (a rest cur : string) :
  has_line_feed a = false ->
  lines_acc cur (a ++ rest) = lines_acc (cur ++ a) rest.
Proof.
  revert cur. induction a as [| c a IH]; intros cur H; simpl in *.
  - now rewrite append_empty_r.
  - apply orb_false_iff in H. destruct H as [Hc Ha]. rewrite Hc.
    rewrite IH by exact Ha. now rewrite append_assoc.
Qed.

Lemma lines_free (a : string) : has_line_feed a = false -> lines a = [a].
Proof.
  intros H. unfold lines.
  rewrite <- (append_empty_r a) at 1. now rewrite lines_acc_free.
Qed.

Lemma spaces_free (n : nat) : has_line_feed (spaces n) = false.
Proof. induction n as [| n IH]; simpl; [reflexivity | exact IH]. Qed.

Lemma digits_free (u : Decimal.uint) :
  has_line_feed (NilEmpty.string_of_uint u) = false.
Proof. induction u; simpl; trivial. Qed.

Lemma str_of_nat_free (n : nat) : has_line_feed (str_of_nat n) = false.
Proof. apply digits_free. Qed.

Lemma join_free (sep : string) (parts : list string) :
  has_line_feed sep = false ->
  Forall (fun p => has_line_feed p = false) parts ->
  has_line_feed (join sep parts) = false.
Proof.
  intros Hsep. induction 1 as [| p parts Hp _ IH]; [reflexivity |].
  destruct parts as [| p' parts]; [exact Hp |].
  change (join sep (p :: p' :: parts)) with (p ++ sep ++ join sep (p' :: parts))%string.
  now rewrite !has_line_feed_app, Hp, Hsep, IH.
Qed.

Lemma str_of_list_free (l : list nat) : has_line_feed (str_of_list l) = false.
Proof.
  unfold str_of_list. rewrite !has_line_feed_app. simpl.
  rewrite join_free; [reflexivity | reflexivity |].
  apply Forall_map. apply Forall_forall. intros n _. apply str_of_nat_free.
Qed.

Lemma outlier_entry_free (col : string) (l : list nat) :
  has_line_feed col = false -> has_line_feed (outlier_entry (col, l)) = false.
Proof.
  intros H. unfold outlier_entry. rewrite !has_line_feed_app.
  now rewrite H, str_of_nat_free, str_of_list_free.
Qed.

Lemma escape_free (s : string) : has_line_feed (escape s) = false.
Proof.
  induction s as [| c s IH]; [reflexivity |]. simpl.
  destruct (Ascii.eqb c (ascii_of_nat 9)) eqn:E9; [exact IH |].
  destruct (Ascii.eqb c (ascii_of_nat 13)) eqn:E13; [exact IH |].
  destruct (Ascii.eqb c (ascii_of_nat 10)) eqn:E10; [exact IH |].
  simpl. now rewrite E10.
Qed.

Lemma drop_first_free (s : string) :
  has_line_feed s = false -> has_line_feed (drop_first s) = false.
Proof.
  destruct s as [| c s]; [trivial |]. simpl.
  intros H. apply orb_false_iff in H. tauto.
Qed.

Lemma trim_front_free (fuel : nat) (ss : list string) :
  Forall (fun s => has_line_feed s = false) ss ->
  Forall (fun s => has_line_feed s = false) (trim_front fuel ss).
Proof.
  revert ss. induction fuel as [| fuel IH]; intros ss H; [exact H |].
  simpl. destruct (forallb starts_with_space ss); [| exact H].
  apply IH. apply Forall_map. apply Forall_impl with (2 := H).
  intros s. apply drop_first_free.
Qed.

Lemma trim_front_length (fuel : nat) (ss : list string) :
  List.length (trim_front fuel ss) = List.length ss.
Proof.
  revert ss. induction fuel as [| fuel IH]; intros ss; [reflexivity |].
  simpl. destruct (forallb starts_with_space ss); [| reflexivity].
  now rewrite IH, length_map.
Qed.

Lemma lines_join (ls : list string) :
  ls <> [] -> Forall (fun l => has_line_feed l = false) ls ->
  lines (join nl ls) = ls.
Proof.
  intros Hne H. induction H as [| l ls Hl Hls IH]; [congruence |].
  destruct ls as [| l' ls]; [now apply lines_free |].
  change (join nl (l :: l' :: ls)) with (l ++ nl ++ join nl (l' :: ls))%string.
  rewrite lines_break, (lines_free l Hl), IH by discriminate. reflexivity.
Qed.

(** The text of a Series of counts has one line per entry. *)
Lemma to_string_line_count (s : Series) :
  s <> [] -> List.length (lines (to_string s)) = List.length s.
Proof.
  intros Hne. destruct s as [| p0 s0] eqn:E; [congruence |]. rewrite <- E.
  unfold to_string. rewrite E. rewrite <- E. cbv zeta.
  set (fmt_index :=
         trim_front (S (String.length (" " ++ escape (fst p0))))
           (map (fun p => (" " ++ escape (fst p))%string) s)).
  set (fmt_values := map (fun p => (" " ++ str_of_nat (snd p))%string) s).
  assert (Hi : List.length fmt_index = List.length s)
    by (unfold fmt_index; now rewrite trim_front_length, length_map).
  assert (Hv : List.length fmt_values = List.length s)
    by (unfold fmt_values; apply length_map).
  assert (Hfree : Forall (fun p : string * string =>
                            has_line_feed (fst p) = false
                            /\ has_line_feed (snd p) = false)
                    (combine fmt_index fmt_values)).
  { assert (Fi : Forall (fun l => has_line_feed l = false) fmt_index).
    { unfold fmt_index. apply trim_front_free. apply Forall_map.
      apply Forall_forall. intros p _. rewrite has_line_feed_app.
      now rewrite escape_free. }
    assert (Fv : Forall (fun l => has_line_feed l = false) fmt_values).
    { unfold fmt_values. apply Forall_map. apply Forall_forall. intros p _.
      rewrite has_line_feed_app. now rewrite str_of_nat_free. }
    rewrite Forall_forall in *. intros [l v] Hin. cbn [fst snd].
    split; [apply Fi; eapply in_combine_l | apply Fv; eapply in_combine_r]; exact Hin. }
  rewrite lines_join.
  - rewrite length_map, length_combine. lia.
  - intros Hnil. apply (f_equal (@List.length string)) in Hnil.
    rewrite length_map, length_combine, Hi, Hv, E in Hnil. simpl in Hnil. lia.
  - apply Forall_map. apply Forall_impl with (2 := Hfree).
    intros p [H1 H2]. unfold ljust, rjust. rewrite !has_line_feed_app.
    now rewrite H1, H2, !spaces_free.
Qed.

(** Widths are counted in characters, control characters are escaped, and
    spaces that every label has in front are trimmed: a two-byte letter
    takes one column, and a tab in a label is printed as backslash-t. *)
Example to_string_counts_characters :
  lines (to_string [(String (ascii_of_nat 195) (String (ascii_of_nat 169) ""), 1);
                    ("ab"%string, 0)])
  = [(String (ascii_of_nat 195) (String (ascii_of_nat 169) "") ++ "     1")%string;
     "ab    0"%string]
  /\ to_string [(String "a" (String (ascii_of_nat 9) "b"), 12)]
     = "a\tb    12"%string
  /\ to_string [(" x", 1); ("  y", 0)]%string = ("x     1" ++ nl ++ " y    0")%string.
Proof. repeat split; vm_compute; reflexivity. Qed.

(** X13: the rendered report has one line per column under Missing Values
    and, when no reported column label holds a line feed, one line per
    reported column under Outliers, in the order of the two inputs. *)
Theorem generate_report_one_line_each (missing_values : MissingValueReport)
    (duplicate_count : nat) (outliers : OutlierReport)
    (Hcolumns : missing_values <> [])
    (Hkeys : Forall (fun p => has_line_feed (fst p) = false) outliers) :
  lines (generate_report missing_values duplicate_count outliers)
  = ["Data Integrity Report"; "====================="; "Missing Values:"]%string
    ++ lines (to_string missing_values)
    ++ [""; ("Duplicate Rows: " ++ str_of_nat duplicate_count); ""; "Outliers:"]%string
    ++ map outlier_entry (items outliers)
    ++ [""%string]
  /\ List.length (lines (to_string missing_values)) = List.length missing_values
  /\ List.length (lines (generate_report missing_values duplicate_count outliers))
     = 8 + List.length missing_values + List.length outliers.
Proof.
  assert (Hlines :
    lines (generate_report missing_values duplicate_count outliers)
    = ["Data Integrity Report"; "====================="; "Missing Values:"]%string
      ++ lines (to_string missing_values)
      ++ [""; ("Duplicate Rows: " ++ str_of_nat duplicate_count); ""; "Outliers:"]%string
      ++ map outlier_entry (items outliers)
      ++ [""%string]).
  { rewrite generate_report_lines. do 4 f_equal. unfold items.
    induction Hkeys as [| [col l] o Hp _ IH]; [reflexivity |].
    cbn [flat_map map]. cbn [fst] in Hp.
    rewrite (lines_free _ (outlier_entry_free col l Hp)).
    now rewrite IH. }
  pose proof (to_string_line_count missing_values Hcolumns) as Hcount.
  split; [exact Hlines |]. split; [exact Hcount |].
  rewrite Hlines. rewrite !length_app, !length_map, Hcount. unfold items. simpl. lia.
Qed.

Lemma generate_report_one_line_each_witness :
  lines (generate_report [("A", 1); ("B", 0)]%string 1 [("x"%string, [5])])
  = ["Data Integrity Report"; "====================="; "Missing Values:"]%string
    ++ lines (to_string [("A", 1); ("B", 0)]%string)
    ++ [""; ("Duplicate Rows: " ++ str_of_nat 1); ""; "Outliers:"]%string
    ++ map outlier_entry [("x"%string, [5])]
    ++ [""%string]
  /\ List.length (lines (to_string [("A", 1); ("B", 0)]%string)) = 2
  /\ List.length (lines (generate_report [("A", 1); ("B", 0)]%string 1 [("x"%string, [5])]))
     = 8 + 2 + 1.
Proof.
  apply (generate_report_one_line_each [("A", 1); ("B", 0)]%string 1 [("x"%string, [5])]).
  - discriminate.
  - repeat constructor.
Defined.

End Layout.

(* ================================================================== *)
(** * Outliers: the scores in binary64                                 *)
(* ================================================================== *)

Section Scores64.

Import PrimFloat.

Variable degenerate : list f64 -> bool.

(** The summation never runs out of fuel: any fuel from the length of the
    array on gives the same sum. *)
Lemma pairwise_sum_fuel (fuel fuel' : nat) (a : list f64) :
  List.length a <= fuel -> List.length a <= fuel' ->
  pairwise_sum fuel a = pairwise_sum fuel' a.
Proof.
  revert fuel' a. induction fuel as [| fuel IH]; intros fuel' a H H'.
  - destruct a; [| simpl in H; lia]. destruct fuel'; reflexivity.
  - destruct fuel' as [| fuel'].
    + destruct a; [reflexivity | simpl in H'; lia].
    + cbn [pairwise_sum].
      destruct (List.length a <? 8) eqn:E8; [reflexivity |].
      destruct (List.length a <=? 128) eqn:E128; [reflexivity |].
      apply Nat.leb_gt in E128.
      assert (Hhalf : 1 <= List.length a / 2 - (List.length a / 2) mod 8
                      /\ List.length a / 2 - (List.length a / 2) mod 8 < List.length a).
      { pose proof (Nat.mod_upper_bound (List.length a / 2) 8).
        assert (64 <= List.length a / 2) by (apply Nat.div_le_lower_bound; lia).
        assert (List.length a / 2 < List.length a) by (apply Nat.div_lt; lia).
        lia. }
      f_equal; apply IH.
      * rewrite length_firstn. lia.
      * rewrite length_firstn. lia.
      * rewrite length_skipn. lia.
      * rewrite length_skipn. lia.
Qed.

Lemma get_fold64 (t : f64) (data : Table64) (acc : OutlierReport)
    (col : string) (xs : list f64) :
  NoDup (map fst data) -> In (col, xs) data ->
  get (fold_left
         (fun outliers c =>
            let indices := outlier_indices64 degenerate (snd c) t in
            if 0 <? List.length indices
            then setitem outliers (fst c) indices
            else outliers)
         data acc) col
  = if 0 <? List.length (outlier_indices64 degenerate xs t)
    then Some (outlier_indices64 degenerate xs t)
    else get acc col.
Proof.
  revert acc. induction data as [| [k ys] data IH]; intros acc Hnd Hin; [destruct Hin |].
  simpl in Hnd. inversion Hnd as [| ? ? Hnot Hnd']; subst.
  cbn [fold_left fst snd].
  destruct Hin as [E | Hin].
  - injection E as -> ->.
    assert (Hother : forall d,
      get (fold_left
             (fun outliers c =>
                let indices := outlier_indices64 degenerate (snd c) t in
                if 0 <? List.length indices
                then setitem outliers (fst c) indices
                else outliers)
             data d) col = get d col).
    { clear IH Hnd Hnd'. induction data as [| [k' ys'] data IH']; intros d; [reflexivity |].
      cbn [fold_left fst snd]. rewrite IH'.
      - destruct (0 <? _); [| reflexivity].
        rewrite get_setitem.
        destruct (String.eqb k' col) eqn:E; [| reflexivity].
        apply String.eqb_eq in E. subst k'. exfalso. apply Hnot. now left.
      - intros H. apply Hnot. now right. }
    rewrite Hother.
    destruct (0 <? _); [| reflexivity].
    rewrite get_setitem. now rewrite String.eqb_refl.
  - rewrite (IH _ Hnd' Hin).
    destruct (0 <? List.length (outlier_indices64 degenerate xs t)); [reflexivity |].
    destruct (0 <? _); [| reflexivity].
    rewrite get_setitem.
    destruct (String.eqb k col) eqn:E; [| reflexivity].
    apply String.eqb_eq in E. subst k. exfalso. apply Hnot.
    apply (in_map fst) in Hin. exact Hin.
Qed.

(** The binding of a column in the report over float64 columns. *)
Lemma report64_lookup (t : f64) (data : Table64) (col : string) (xs : list f64) :
  NoDup (map fst data) -> In (col, xs) data ->
  forall i,
    (exists l, get (check_outliers64 degenerate data t) col = Some l /\ In i l)
    <-> In i (outlier_indices64 degenerate xs t).
Proof.
  intros Hnd Hin i.
  pose proof (get_fold64 t data [] col xs Hnd Hin) as Hget.
  change (get (check_outliers64 degenerate data t) col
          = if 0 <? List.length (outlier_indices64 degenerate xs t)
            then Some (outlier_indices64 degenerate xs t)
            else get [] col) in Hget.
  rewrite Hget. clear Hget.
  destruct (outlier_indices64 degenerate xs t) as [| j l] eqn:E; cbn [List.length Nat.ltb Nat.leb get].
  - split; [intros [l [H _]]; discriminate | intros []].
  - split.
    + intros [l' [H Hi]]. injection H as <-. exact Hi.
    + intros Hi. exists (j :: l). split; [reflexivity | exact Hi].
Qed.

Lemma outlier_indices64_In (xs : list f64) (t : f64) (i : nat) :
  In i (outlier_indices64 degenerate xs t)
  <-> i < List.length (dropna64 xs)
      /\ (t <? abs (nth i (zscore64 degenerate 0 (dropna64 xs)) nan))%float = true.
Proof.
  unfold outlier_indices64, np_where. cbv zeta. rewrite where_from_In.
  assert (Hlen : List.length (zscore64 degenerate 0 (dropna64 xs))
                 = List.length (dropna64 xs)).
  { unfold zscore64. destruct (degenerate _); apply length_map. }
  rewrite !length_map, Hlen, Nat.sub_0_r, Nat.add_0_l.
  rewrite map_map.
  assert (Hnth : i < List.length (dropna64 xs) ->
                 nth i (map (fun x => (t <? abs x)%float)
                          (zscore64 degenerate 0 (dropna64 xs))) false
                 = (t <? abs (nth i (zscore64 degenerate 0 (dropna64 xs)) nan))%float).
  { intros Hi.
    rewrite nth_indep with (d' := (fun x => (t <? abs x)%float) nan)
      by now rewrite length_map, Hlen.
    now rewrite (map_nth (fun x => (t <? abs x)%float)). }
  split.
  - intros [_ [Hi H]]. split; [exact Hi |]. now rewrite <- Hnth.
  - intros [Hi H]. repeat split; [lia | exact Hi |]. now rewrite Hnth.
Qed.

Lemma zscore64_nth (ys : list f64) (i : nat) :
  degenerate ys = false -> i < List.length ys ->
  nth i (zscore64 degenerate 0 ys) nan
  = ((nth i ys zero - np_mean ys)
     / sqrt (np_mean (map (fun v => (v - np_mean ys) * (v - np_mean ys)) ys)))%float.
Proof.
  intros Hd Hi. unfold zscore64. rewrite Hd.
  rewrite nth_indep
    with (d' := (fun v => ((v - np_mean ys) / np_std 0 ys)%float) zero)
    by now rewrite length_map.
  rewrite (map_nth (fun v => ((v - np_mean ys) / np_std 0 ys)%float)).
  f_equal. unfold np_std. f_equal.
  unfold np_var. cbv zeta. rewrite map_map, Nat.sub_0_r.
  unfold np_mean at 3. now rewrite length_map.
Qed.

(** C2 (amended): for a float64 column with at least two non-missing
    values that SciPy does not treat as an input without spread, position
    [i] of the reduced sequence is reported exactly when [|z| > z_thresh] for
    the score [z = (v - mean) / std] computed in binary64, where [std] is the
    population standard deviation: the square root of the mean of the
    squared deviations (divisor [n], not [n - 1]). *)
Theorem check_outliers64_population_score (data : Table64) (z_thresh : f64)
    (col : string) (xs : list f64) (i : nat)
    (Hlabels : NoDup (map fst data)) (Hcol : In (col, xs) data)
    (Hlen : 2 <= List.length (dropna64 xs))
    (Hspread : degenerate (dropna64 xs) = false)
    (Hi : i < List.length (dropna64 xs)) :
  (exists l, get (check_outliers64 degenerate data z_thresh) col = Some l /\ In i l)
  <-> (z_thresh
       <? abs ((nth i (dropna64 xs) zero - np_mean (dropna64 xs))
               / sqrt (np_mean
                         (map (fun v => (v - np_mean (dropna64 xs))
                                        * (v - np_mean (dropna64 xs)))
                            (dropna64 xs)))))%float = true.
Proof.
  rewrite (report64_lookup z_thresh data col xs Hlabels Hcol i).
  rewrite outlier_indices64_In.
  rewrite (zscore64_nth (dropna64 xs) i Hspread Hi).
  tauto.
Qed.

(** A comparison against a negative threshold holds for every absolute
    value that is a number. *)
Lemma negative_below_abs (t z : f64) :
  (t <? zero)%float = true -> (t <? abs z)%float = negb (is_nan z).
Proof.
  intros Ht. unfold is_nan.
  rewrite FloatAxioms.ltb_spec in *. rewrite FloatAxioms.eqb_spec, FloatAxioms.abs_spec.
  change (FloatOps.Prim2SF zero) with (SpecFloat.S754_zero false) in Ht.
  destruct (FloatOps.Prim2SF t) as [st | st | | st mt et], (FloatOps.Prim2SF z) as [sz | sz | | sz mz ez];
    try destruct st; try destruct sz; try discriminate Ht; try reflexivity;
    unfold SpecFloat.SFeqb, SpecFloat.SFltb, SpecFloat.SFcompare, SpecFloat.SFabs;
    rewrite ?Z.compare_refl, ?Pos.compare_cont_refl; reflexivity.
Qed.

(** X6: with a negative threshold a position of a float64 column is
    reported exactly when its binary64 score is a number: every non-missing
    value is an outlier unless its score is NaN. *)
Theorem check_outliers64_negative_threshold (data : Table64) (z_thresh : f64)
    (col : string) (xs : list f64) (i : nat)
    (Hlabels : NoDup (map fst data)) (Hcol : In (col, xs) data)
    (Hneg : (z_thresh <? zero)%float = true) :
  (exists l, get (check_outliers64 degenerate data z_thresh) col = Some l /\ In i l)
  <-> i < List.length (dropna64 xs)
      /\ is_nan (nth i (zscore64 degenerate 0 (dropna64 xs)) nan) = false.
Proof.
  rewrite (report64_lookup z_thresh data col xs Hlabels Hcol i).
  rewrite outlier_indices64_In.
  rewrite (negative_below_abs z_thresh _ Hneg).
  rewrite negb_true_iff. tauto.
Qed.

End Scores64.

(** The running example in binary64: the population score of the value 4
    exceeds 3 and its sample score does not; with a missing first cell the
    reported position is still 10; nine 0s and a 7 are one rounding step
    above the threshold; values around [2^53] have no score at all. *)
Example scores64_examples :
  check_outliers64 negligible_spread [("x"%string, spread64)] (of_nat 3)
  = [("x"%string, [10])]
  /\ PrimFloat.ltb (of_nat 3)
       (PrimFloat.abs (nth 10 (zscore64 negligible_spread 1 spread64) PrimFloat.nan))
     = false
  /\ check_outliers64 negligible_spread [("x"%string, shifted64)] (of_nat 3)
     = [("x"%string, [10])]
  /\ check_outliers64 negligible_spread [("x"%string, boundary64)] (of_nat 3)
     = [("x"%string, [9])]
  /\ check_outliers64 negligible_spread [("x"%string, huge64)]
       (PrimFloat.opp (of_nat 1))
     = [].
Proof. repeat split; vm_compute; reflexivity. Qed.

Lemma check_outliers64_population_score_witness :
  (exists l,
     get (check_outliers64 negligible_spread [("x"%string, spread64)] (of_nat 3))
       "x"%string = Some l /\ In 10 l)
  <-> PrimFloat.ltb (of_nat 3)
        (PrimFloat.abs
           (PrimFloat.div
              (PrimFloat.sub (nth 10 (dropna64 spread64) PrimFloat.zero)
                 (np_mean (dropna64 spread64)))
              (PrimFloat.sqrt
                 (np_mean
                    (map (fun v =>
                            PrimFloat.mul
                              (PrimFloat.sub v (np_mean (dropna64 spread64)))
                              (PrimFloat.sub v (np_mean (dropna64 spread64))))
                       (dropna64 spread64)))))) = true.
Proof.
  apply (check_outliers64_population_score negligible_spread
           [("x"%string, spread64)] (of_nat 3) "x"%string spread64 10).
  - repeat constructor. simpl. tauto.
  - left. reflexivity.
  - vm_compute. lia.
  - vm_compute. reflexivity.
  - vm_compute. lia.
Defined.

Lemma check_outliers64_negative_threshold_witness :
  (exists l,
     get (check_outliers64 all_equal_first [("x"%string, shifted64)]
            (PrimFloat.opp (of_nat 1)))
       "x"%string = Some l /\ In 3 l)
  <-> 3 < List.length (dropna64 shifted64)
      /\ PrimFloat.is_nan
           (nth 3 (zscore64 all_equal_first 0 (dropna64 shifted64)) PrimFloat.nan)
         = false.
Proof.
  apply (check_outliers64_negative_threshold all_equal_first
           [("x"%string, shifted64)] (PrimFloat.opp (of_nat 1)) "x"%string shifted64 3).
  - repeat constructor. simpl. tauto.
  - left. reflexivity.
  - vm_compute. reflexivity.
Defined.
